(** * predicting_the_past_import: name matching, filtering and timelines

    A shallow embedding of [scripts/predicting_the_past_import.py]: the two
    name normalisers, the coordinate merge, the region and deployment
    filter, the reactor lifetime and the build offset.

    Text.  Python text is a list of code points.  The case mappings, the
    white-space class and the decimal digits below are those of CPython
    for code points up to U+017F (Basic Latin, Latin-1 Supplement, Latin
    Extended-A); this covers the reactor file, which is read as
    iso-8859-1, and the edge-case table.  Beyond U+017F the case mappings
    leave a code point unchanged.

    Libraries.  The three routines of other packages that decide a branch
    ([fuzz.ratio], [dateutil.parser.parse] and the builtin [float]) are
    the fields of the class [Library]; every statement holds for any
    implementation of them.  [reference] is one implementation, used for
    the examples.

    Failure.  A function that can raise returns a [result]; the
    exceptions are those of the Python run.

    Frames.  A data frame is its rows; column labels are not modelled.
    The row that [iterrows] yields is taken to be the frame's own row, so
    that a cell written through it is written to the frame: this is what
    [merge_coordinates] relies on to fill the coordinate columns. *)

From Stdlib Require Import String Ascii.
From Stdlib Require Import List ZArith NArith QArith Qround Bool Lia.
Import ListNotations.

Local Open Scope Z_scope.

(** ** Text *)

Definition char := N.
Definition str := list char.

(** Code points of a UTF-8 byte sequence, so that text can be written as
    a literal. *)
Fixpoint utf8 (bs : list N) : str :=
  match bs with
  | [] => []
  | b :: r =>
      if (b <? 128)%N then b :: utf8 r
      else if (b <? 224)%N then
        match r with
        | b1 :: r1 => ((b - 192) * 64 + (b1 - 128))%N :: utf8 r1
        | [] => []
        end
      else if (b <? 240)%N then
        match r with
        | b1 :: b2 :: r2 =>
            ((b - 224) * 4096 + (b1 - 128) * 64 + (b2 - 128))%N :: utf8 r2
        | _ => []
        end
      else
        match r with
        | b1 :: b2 :: b3 :: r3 =>
            ((b - 240) * 262144 + (b1 - 128) * 4096
             + (b2 - 128) * 64 + (b3 - 128))%N :: utf8 r3
        | _ => []
        end
  end.

Definition py (s : string) : str :=
  utf8 (map N_of_ascii (list_ascii_of_string s)).

Definition str_eqb (a b : str) : bool :=
  if list_eq_dec N.eq_dec a b then true else false.

Definition between (lo hi c : N) : bool := ((lo <=? c) && (c <=? hi))%N.

(** [str.lower()], one code point at a time. *)
Definition lower_cp (c : char) : str :=
  if between 65 90 c then [c + 32]%N
  else if between 192 214 c || between 216 222 c then [c + 32]%N
  else if (c =? 304)%N then [105; 775]%N
  else if (c =? 376)%N then [255]%N
  else if (between 256 303 c || between 306 311 c || between 330 375 c)
          && N.even c then [c + 1]%N
  else if (between 313 328 c || between 377 382 c) && N.odd c then [c + 1]%N
  else [c].

Definition lower (s : str) : str := flat_map lower_cp s.

(** [str.upper()], one code point at a time. *)
Definition upper_cp (c : char) : str :=
  if between 97 122 c then [c - 32]%N
  else if (c =? 181)%N then [924]%N
  else if (c =? 223)%N then [83; 83]%N
  else if between 224 246 c || between 248 254 c then [c - 32]%N
  else if (c =? 255)%N then [376]%N
  else if (c =? 305)%N then [73]%N
  else if (c =? 329)%N then [700; 78]%N
  else if (c =? 383)%N then [83]%N
  else if (between 257 303 c || between 307 311 c || between 331 375 c)
          && N.odd c then [c - 1]%N
  else if (between 314 328 c || between 378 382 c) && N.even c then [c - 1]%N
  else [c].

Definition upper (s : str) : str := flat_map upper_cp s.

(** [str.isspace()] of one character: the class [strip] and [split] use. *)
Definition is_space (c : char) : bool :=
  between 9 13 c || between 28 32 c || (c =? 133)%N || (c =? 160)%N
  || (c =? 5760)%N || between 8192 8202 c || (c =? 8232)%N || (c =? 8233)%N
  || (c =? 8239)%N || (c =? 8287)%N || (c =? 12288)%N.

Definition is_digit (c : char) : bool := between 48 57 c.

Fixpoint starts_with (p s : str) : bool :=
  match p, s with
  | [], _ => true
  | _ :: _, [] => false
  | a :: p', b :: s' => (a =? b)%N && starts_with p' s'
  end.

(** [s.find(sub)]: the lowest index where [sub] occurs, or [-1]. *)
Fixpoint find (sub s : str) : Z :=
  if starts_with sub s then 0
  else match s with
       | [] => -1
       | _ :: s' => let r := find sub s' in if r =? -1 then -1 else r + 1
       end.

Definition len (s : str) : Z := Z.of_nat (length s).

(** [s[i:]] and [s[:i]] with Python's reading of a negative bound. *)
Definition clamp (i : Z) (s : str) : nat :=
  Z.to_nat (Z.min (len s) (if i <? 0 then Z.max 0 (len s + i) else i)).

Definition slice_from (i : Z) (s : str) : str := skipn (clamp i s) s.
Definition slice_to (i : Z) (s : str) : str := firstn (clamp i s) s.

(** [s.replace(old, new)]: occurrences are taken left to right and do not
    overlap; an empty [old] matches before every character and at the
    end. *)
Fixpoint replace_from (old new : str) (skip : nat) (s : str) : str :=
  match s with
  | [] => []
  | c :: s' =>
      match skip with
      | S k => replace_from old new k s'
      | O => if starts_with old s
             then new ++ replace_from old new (length old - 1) s'
             else c :: replace_from old new 0 s'
      end
  end.

Definition replace (old new s : str) : str :=
  match old with
  | [] => new ++ flat_map (fun c => c :: new) s
  | _ :: _ => replace_from old new 0 s
  end.

Fixpoint lstrip (s : str) : str :=
  match s with
  | c :: s' => if is_space c then lstrip s' else s
  | [] => []
  end.

Definition rstrip (s : str) : str := rev (lstrip (rev s)).

Definition strip (s : str) : str := rstrip (lstrip s).

(** [s.split()]: the maximal runs of non-blank characters. *)
Fixpoint split_ws (cur : str) (s : str) : list str :=
  match s with
  | [] => match cur with [] => [] | _ => [rev cur] end
  | c :: s' =>
      if is_space c
      then match cur with [] => split_ws [] s' | _ => rev cur :: split_ws [] s' end
      else split_ws (c :: cur) s'
  end.

Definition split (s : str) : list str := split_ws [] s.

Fixpoint join (sep : str) (parts : list str) : str :=
  match parts with
  | [] => []
  | [p] => p
  | p :: rest => p ++ sep ++ join sep rest
  end.

(** ** Exceptions *)

Inductive exn :=
| AttributeError              (* a method of [str] called on another value *)
| IndexError                  (* a position outside a row or a text *)
| TypeError                   (* an aware and a naive date subtracted *)
| ValueError (msg : str)      (* raised by the script itself *)
| FloatError (arg : str)      (* the [ValueError] of [float(arg)] *)
| ParserError (arg : str).    (* whatever [date.parse(arg)] raises *)

Inductive result (A : Type) :=
| Ok (a : A)
| Raise (e : exn).

Arguments Ok {A} a.
Arguments Raise {A} e.

Definition bind {A B} (c : result A) (k : A -> result B) : result B :=
  match c with
  | Ok a => k a
  | Raise e => Raise e
  end.

Notation "x <- c ;; k" := (bind c (fun x => k))
  (at level 61, c at next level, right associativity).

(** A [for] loop whose body may raise: the state is threaded through the
    items in order and the first exception ends the loop. *)
Fixpoint for_each {A S} (items : list A) (body : S -> A -> result S) (s : S)
  : result S :=
  match items with
  | [] => Ok s
  | x :: rest => s' <- body s x ;; for_each rest body s'
  end.

(** [s[i]] for a text. *)
Definition getitem (s : str) (i : Z) : result char :=
  let k := if i <? 0 then len s + i else i in
  if (0 <=? k) && (k <? len s)
  then match nth_error s (Z.to_nat k) with
       | Some c => Ok c
       | None => Raise IndexError
       end
  else Raise IndexError.

(** ** Library values *)

(** A [datetime]: the calendar date, the time of day in microseconds and,
    for an aware value, the offset from UTC in microseconds. *)
Record datetime := {
  year : Z;
  month : Z;
  day : Z;
  tod : Z;
  utcoffset : option Z
}.

(** A Python [float]: every finite double is a rational. *)
Inductive pyfloat :=
| Finite (q : Q)
| Inf (negative : bool)
| NaN.

(** [x > n] for a float [x] and an integer [n]. *)
Definition float_gt (x : pyfloat) (n : Z) : bool :=
  match x with
  | Finite q => match (inject_Z n ?= q)%Q with Lt => true | _ => false end
  | Inf negative => negb negative
  | NaN => false
  end.

(** The routines of other packages that the script calls. *)
Class Library := {
  fuzz_ratio : str -> str -> Z;            (* fuzzywuzzy's [fuzz.ratio] *)
  date_parse : str -> option datetime;     (* [dateutil.parser.parse]; [None]: it raises *)
  float : str -> option pyfloat            (* the builtin; [None]: it raises *)
}.

(** ** Name normalisers *)

Definition blacklist : list str :=
  [py "nuclear"; py "power"; py "plant"; py "generating"; py "station";
   py "reactor"; py "atomic"; py "energy"; py "center"; py "electric"].

Definition sanitize_webscrape_name (name : str) : str :=
  let name := lower name in
  let name := fold_left (fun name blacklisted => replace blacklisted [] name)
                        blacklist name in
  let name := strip name in
  join (py " ") (split name).

(** The text after an optional sign that [int] accepts: digits, with single
    underscores between them. *)
Fixpoint int_body (after_digit : bool) (s : str) : bool :=
  match s with
  | [] => after_digit
  | c :: s' =>
      if is_digit c then int_body true s'
      else if (c =? 95)%N && after_digit then int_body false s'
      else false
  end.

(** [is_int(str)]: whether [int(str)] returns. *)
Definition is_int (s : str) : bool :=
  match strip s with
  | [] => false
  | c :: rest => if (c =? 43)%N || (c =? 45)%N
                 then int_body false rest
                 else int_body false (c :: rest)
  end.

Definition sanitize_pris_name (name : str) : result str :=
  let pris_name := lower name in
  numbered <- (if negb (find (py "-") pris_name =? -1)
               then (c <- getitem pris_name (-1) ;; Ok (is_int [c]))
               else Ok false) ;;
  if numbered : bool then
    if negb (find (py "-") (slice_from (find (py "-") pris_name + 1) pris_name)
             =? -1)
    then
      let idx := find (py "-") pris_name in
      let idx := idx + find (py "-")
                         (slice_from (find (py "-") pris_name + 1) pris_name) in
      Ok (slice_to idx pris_name)
    else Ok (slice_to (find (py "-") pris_name) pris_name)
  else Ok pris_name.

(** ** Tables *)

(** A cell of a data frame or of a database row. *)
Inductive value :=
| VStr (s : str)
| VNum (q : Q)
| VNull.                        (* [nan] in a frame, [NULL] in the database *)

Definition row := list value.

(** A data frame: its number of columns and its rows, each of that width. *)
Record frame := {
  ncols : nat;
  rows : list row
}.

(** A row of the query [SELECT name, long, lat FROM reactors_coordinates]. *)
Record geo := {
  g_name : value;
  g_long : value;
  g_lat : value
}.

(** [v.lower()] and the like need [v] to be text. *)
Definition text (v : value) : result str :=
  match v with
  | VStr s => Ok s
  | _ => Raise AttributeError
  end.

(** [row[i]], read. *)
Definition cell (r : row) (i : nat) : result value :=
  match nth_error r i with
  | Some v => Ok v
  | None => Raise IndexError
  end.

(** [row[i] = v]. *)
Definition setitem (i : nat) (v : value) (r : row) : result row :=
  if (i <? length r)%nat
  then Ok (firstn i r ++ v :: skipn (S i) r)
  else Raise IndexError.

Definition insert_column (loc : nat) (v : value) (f : frame) : result frame :=
  if (loc <=? ncols f)%nat
  then Ok {| ncols := S (ncols f);
             rows := map (fun r => firstn loc r ++ v :: skipn loc r) (rows f) |}
  else Raise IndexError.

Definition fill_blank (v : value) : value :=
  match v with
  | VNull => VStr []
  | _ => v
  end.

(** [import_pris], from the frame that [read_csv] returns. *)
Definition import_pris (pris : frame) : result frame :=
  pris <- insert_column 13 VNull pris ;;
  pris <- insert_column 14 VNull pris ;;
  Ok {| ncols := ncols pris; rows := map (map fill_blank) (rows pris) |}.

Definition get_edge_cases : list (str * str) :=
  [(py "OHI-", py "Ōi");
   (py "ASCO-", py "Ascó");
   (py "ROVNO-", py "Rivne");
   (py "SHIN-KORI-", py "Kori");
   (py "ANO-", py "Arkansas One");
   (py "HANBIT-", py "Yeonggwang");
   (py "FERMI-", py "Enrico Fermi");
   (py "BALTIC-", py "Kaliningrad");
   (py "COOK-", py "Donald C. Cook");
   (py "HATCH-", py "Edwin I. Hatch");
   (py "HARRIS-", py "Shearon Harris");
   (py "SHIN-WOLSONG-", py "Wolseong");
   (py "ST. ALBAN-", py "Saint-Alban");
   (py "LASALLE-", py "LaSalle County");
   (py "ZAPOROZHYE-", py "Zaporizhzhya");
   (py "ROBINSON-", py "H. B. Robinson");
   (py "SUMMER-", py "Virgil C. Summer");
   (py "FARLEY-", py "Joseph M. Farley");
   (py "ST. LAURENT ", py "Saint-Laurent");
   (py "HADDAM NECK", py "Connecticut1 Yankee");
   (py "FITZPATRICK", py "James A. FitzPatrick");
   (py "HIGASHI DORI-1 (TOHOKU)", py "Higashidōri")].

(** ** The coordinate merge *)

(** [prs[13] = web['lat']; prs[14] = web['long']]. *)
Definition assign (web : geo) (prs : row) : result row :=
  prs <- setitem 13 (g_lat web) prs ;;
  setitem 14 (g_long web) prs.

(** The body of the two nested loops of [merge_coordinates], for one geo
    point and one row of the frame. *)
Definition merge_row `{Library} (web : geo) (prs : row) : result row :=
  let others := get_edge_cases in
  name <- text (g_name web) ;;
  let webscrape_name := sanitize_webscrape_name name in
  name <- cell prs 1 ;;
  name <- text name ;;
  pris_name <- sanitize_pris_name name ;;
  if 78 <? fuzz_ratio webscrape_name pris_name
  then assign web prs
  else
    for_each others
      (fun prs other =>
         let edge_case_key := lower (fst other) in
         let edge_case_value := lower (snd other) in
         if 80 <? fuzz_ratio pris_name edge_case_key
         then if 75 <? fuzz_ratio webscrape_name edge_case_value
              then assign web prs
              else Ok prs
         else Ok prs)
      prs.

(** One turn of [for i, prs in pris.iterrows()]: [prs] is row [i] of the
    frame itself, so what the body writes to [prs] is written to the frame. *)
Definition iterrows_step `{Library} (web : geo) (pris : list row) (i : nat)
  : result (list row) :=
  match nth_error pris i with
  | Some prs =>
      prs <- merge_row web prs ;;
      Ok (firstn i pris ++ prs :: skipn (S i) pris)
  | None => Ok pris
  end.

(** [merge_coordinates]: from what [read_csv] gives for [pris_link] and
    what the query gives for [scrape_link], the frame that is written to
    [reactors_pris_2016.csv]. *)
Definition merge_coordinates `{Library} (pris_link : frame) (scrape_link : list geo)
  : result frame :=
  pris <- import_pris pris_link ;;
  let coords := scrape_link in
  merged <- for_each coords
              (fun table web =>
                 for_each (seq 0 (length table)) (iterrows_step web) table)
              (rows pris) ;;
  Ok {| ncols := ncols pris; rows := merged |}.

(** ** The region and deployment filter *)

(** A row of the list that [import_csv] returns: the fields of one line. *)
Definition csv_row := list str.

Definition field (r : csv_row) (i : nat) : result str :=
  match nth_error r i with
  | Some s => Ok s
  | None => Raise IndexError
  end.

Definition confirm_deployment `{Library} (date_str capacity : str) : result bool :=
  let is_deployed := false in
  large <- (if 4 <? len date_str
            then match float capacity with
                 | Some x => Ok (float_gt x 400)
                 | None => Raise (FloatError capacity)
                 end
            else Ok false) ;;
  if large : bool then
    match date_parse date_str with
    | Some _ => Ok true
    | None => Ok is_deployed
    end
  else Ok is_deployed.

Definition ASIA : list str :=
  [py "IRAN"; py "JAPAN"; py "KAZAKHSTAN"; py "BANGLADESH"; py "CHINA";
   py "INDIA"; py "UNITED ARAB EMIRATES"; py "VIETNAM"; py "PAKISTAN";
   py "PHILIPPINES"; py "SOUTH KOREA"].

Definition UNITED_STATES : list str := [py "UNITED STATES"].

Definition SOUTH_AMERICA : list str := [py "ARGENTINA"; py "BRAZIL"].

Definition NORTH_AMERICA : list str :=
  [py "CANADA"; py "MEXICO"; py "UNITED STATES"].

Definition EUROPE : list str :=
  [py "UKRAINE"; py "UNITED KINGDOM"; py "POLAND"; py "ROMANIA"; py "RUSSIA";
   py "BELARUS"; py "BELGIUM"; py "BULGARIA"; py "GERMANY"; py "ITALY";
   py "NETHERLANDS"; py "SWEDEN"; py "SWITZERLAND"; py "TURKEY";
   py "SLOVENIA"; py "SOVIET UNION"; py "SPAIN"; py "CZECHOSLOVAKIA";
   py "FINLAND"; py "FRANCE"].

Definition AFRICA : list str :=
  [py "EGYPT"; py "MOROCCO"; py "SOUTH AFRICA"; py "TUNISIA"].

Definition ALL : list str :=
  SOUTH_AMERICA ++ NORTH_AMERICA ++ EUROPE ++ ASIA ++ AFRICA ++ UNITED_STATES.

Definition regions : list (str * list str) :=
  [(py "ASIA", ASIA);
   (py "AFRICA", AFRICA);
   (py "EUROPE", EUROPE);
   (py "SOUTH_AMERICA", SOUTH_AMERICA);
   (py "NORTH_AMERICA", NORTH_AMERICA);
   (py "UNITED_STATES", UNITED_STATES);
   (py "ALL", ALL)].

(** [x in s] for a set of texts. *)
Definition member (x : str) (s : list str) : bool := existsb (str_eqb x) s.

(** [d.keys()] and [d[k]] for a dictionary kept in insertion order. *)
Definition keys {V} (d : list (str * V)) : list str := map fst d.

Fixpoint lookup {V} (k : str) (d : list (str * V)) : option V :=
  match d with
  | [] => None
  | (k', v) :: rest => if str_eqb k k' then Some v else lookup k rest
  end.

(** The test [country.upper() in regions[region.upper()]]; a region that is
    no key has no members. *)
Definition in_region (region country : str) : bool :=
  match lookup (upper region) regions with
  | Some countries => member (upper country) countries
  | None => false
  end.

Definition select_region `{Library} (in_list : list csv_row) (region : str)
  : result (list csv_row) :=
  if negb (member (upper region) (keys regions))
  then Raise (ValueError (region ++ py "is not a valid region"))
  else
    for_each in_list
      (fun reactor_list row =>
         country <- field row 0 ;;
         if in_region region country
         then
           capacity <- field row 3 ;;
           start_date <- field row 10 ;;
           deployed <- confirm_deployment start_date capacity ;;
           if deployed : bool then Ok (reactor_list ++ [row]) else Ok reactor_list
         else Ok reactor_list)
      [].

(** ** Dates *)

Definition is_leap (y : Z) : bool :=
  (y mod 4 =? 0) && (negb (y mod 100 =? 0) || (y mod 400 =? 0)).

Definition days_in_month (y m : Z) : Z :=
  if m =? 2 then (if is_leap y then 29 else 28)
  else if (m =? 4) || (m =? 6) || (m =? 9) || (m =? 11) then 30
  else 31.

Definition days_before_year (y : Z) : Z :=
  let y := y - 1 in y * 365 + y / 4 - y / 100 + y / 400.

Definition days_before_month (y m : Z) : Z :=
  fold_left (fun acc k => acc + days_in_month y (Z.of_nat k))
            (seq 1 (Z.to_nat (m - 1))) 0.

(** [d.toordinal()]: day 1 is 0001-01-01. *)
Definition toordinal (d : datetime) : Z :=
  days_before_year (year d) + days_before_month (year d) (month d) + day d.

Definition microseconds (d : datetime) : Z :=
  toordinal d * 86400000000 + tod d.

(** [(a - b).days]: the difference in whole days, rounded down. *)
Definition days_between (a b : datetime) : result Z :=
  match utcoffset a, utcoffset b with
  | None, None => Ok ((microseconds a - microseconds b) / 86400000000)
  | Some oa, Some ob =>
      Ok (((microseconds a - oa) - (microseconds b - ob)) / 86400000000)
  | _, _ => Raise TypeError
  end.

Definition parse `{Library} (s : str) : result datetime :=
  match date_parse s with
  | Some d => Ok d
  | None => Raise (ParserError s)
  end.

(** ** Lifetime and build offset *)

(** [int(x)]: towards zero. *)
Definition int (x : Q) : Z := Z.quot (Qnum x) (Z.pos (Qden x)).

(** [round(x)]: to the nearest integer, a tie to the even one. *)
Definition round (x : Q) : Z :=
  let f := Qfloor x in
  match (x - inject_Z f ?= 1 # 2)%Q with
  | Lt => f
  | Gt => f + 1
  | Eq => if Z.even f then f else f + 1
  end.

(** The script divides doubles; [365.0 / 12] is the double next above
    365/12, off by 2^-48 / 3.  A quotient of a day count by it is a whole
    number only for a multiple of 365, where the double quotient is that
    whole number too, and is otherwise at least 1/365 away from a whole
    number and 1/730 from a half, so [int] and [round] of the double and
    of the exact quotient agree.  The quotient is therefore taken in Q. *)
Definition n_days_month : Q := 365 # 12.

Definition get_lifetime `{Library} (in_row : csv_row) : result Z :=
  comm_date <- field in_row 10 ;;
  shutdown_date <- field in_row 11 ;;
  match strip shutdown_date with
  | [] => Ok 720
  | _ :: _ =>
      shutdown <- parse shutdown_date ;;
      commercial <- parse comm_date ;;
      delta <- days_between shutdown commercial ;;
      Ok (int (inject_Z delta / n_days_month))
  end.

Fixpoint rfind (sub s : str) : Z :=
  match s with
  | [] => if starts_with sub [] then 0 else -1
  | _ :: s' =>
      let r := rfind sub s' in
      if r =? -1 then (if starts_with sub s then 0 else -1) else r + 1
  end.

Fixpoint drop_leading (c : char) (s : str) : str :=
  match s with
  | x :: s' => if (x =? c)%N then drop_leading c s' else s
  | [] => []
  end.

(** [posixpath.dirname]. *)
Definition dirname (p : str) : str :=
  let i := rfind (py "/") p + 1 in
  let head := slice_to i p in
  if negb (str_eqb head []) && negb (forallb (N.eqb 47%N) head)
  then rev (drop_leading 47%N (rev head))
  else head.

(** [d.update({k: v})] for a dictionary kept in insertion order. *)
Fixpoint update {V} (k : str) (v : V) (d : list (str * V)) : list (str * V) :=
  match d with
  | [] => [(k, v)]
  | (k', v') :: rest =>
      if str_eqb k k' then (k, v) :: rest else (k', v') :: update k v rest
  end.

Definition get_buildtime `{Library} (in_list : list csv_row) (start_year : Z)
  (path_list : list str) : result (list (str * (str * Z))) :=
  for_each in_list
    (fun buildtime_dict row =>
       comm_date <- field row 10 ;;
       comm_date <- parse comm_date ;;
       let start_date := (year comm_date, month comm_date, day comm_date) in
       let delta := (fst (fst start_date) - start_year) * 12
                    + snd (fst start_date)
                    + round (inject_Z (snd start_date) / n_days_month) in
       for_each path_list
         (fun buildtime_dict reactor =>
            name <- field row 1 ;;
            let name := replace (py " ") (py "_") name in
            country <- field row 0 ;;
            let file_name :=
              replace (py "/") [] (replace (dirname reactor) [] reactor) in
            if str_eqb (name ++ py ".xml") file_name
            then Ok (update name (country, delta) buildtime_dict)
            else Ok buildtime_dict)
         buildtime_dict)
    [].

(** ** Recipes *)

(** [pyne]'s [nucname.id]: the identifier of a nuclide name; [None]: it
    raises. *)
Class Nuclides := {
  nn_id : str -> option Z
}.

Inductive recipe_exn :=
| Python (e : exn)
| NucnameError (arg : str).        (* whatever [nn.id(arg)] raises *)

Inductive attempt (A : Type) :=
| Done (a : A)
| Failed (e : recipe_exn).

Arguments Done {A} a.
Arguments Failed {A} e.

(** A [for] loop over the items, as [for_each], for a body that may also
    fail on a nuclide name. *)
Fixpoint attempt_each {A S} (items : list A) (body : S -> A -> attempt S) (s : S)
  : attempt S :=
  match items with
  | [] => Done s
  | x :: rest =>
      match body s x with
      | Done s' => attempt_each rest body s'
      | Failed e => Failed e
      end
  end.

(** [d.update({k: v})] for a dictionary of nuclide identifiers, kept in
    insertion order. *)
Fixpoint update_id {V} (k : Z) (v : V) (d : list (Z * V)) : list (Z * V) :=
  match d with
  | [] => [(k, v)]
  | (k', v') :: rest =>
      if k =? k' then (k, v) :: rest else (k', v') :: update_id k v rest
  end.

Fixpoint lookup_id {V} (k : Z) (d : list (Z * V)) : option V :=
  match d with
  | [] => None
  | (k', v) :: rest => if k =? k' then Some v else lookup_id k rest
  end.

(** [data_dict.update({nn.id(row[0]): float(row[column])})]: the key is
    evaluated before the value. *)
Definition record_nuclide `{Library} `{Nuclides} (row : csv_row) (column : nat)
  (data_dict : list (Z * pyfloat)) : attempt (list (Z * pyfloat)) :=
  match nth_error row 0 with
  | None => Failed (Python IndexError)
  | Some name =>
      match nn_id name with
      | None => Failed (NucnameError name)
      | Some key =>
          match nth_error row column with
          | None => Failed (Python IndexError)
          | Some amount =>
              match float amount with
              | None => Failed (Python (FloatError amount))
              | Some x => Done (update_id key x data_dict)
              end
          end
      end
  end.

Definition get_composition_fresh `{Library} `{Nuclides} (in_list : list csv_row)
  (burnup : Z) : attempt (list (Z * pyfloat)) :=
  attempt_each (seq 0 (length in_list))
    (fun data_dict i =>
       if (1 <? i)%nat
       then match nth_error in_list i with
            | None => Failed (Python IndexError)
            | Some row =>
                if burnup =? 33 then record_nuclide row 1 data_dict
                else if burnup =? 51 then record_nuclide row 3 data_dict
                else record_nuclide row 5 data_dict
            end
       else Done data_dict)
    [].

Definition get_composition_spent `{Library} `{Nuclides} (in_list : list csv_row)
  (burnup : Z) : attempt (list (Z * pyfloat)) :=
  attempt_each (seq 0 (length in_list))
    (fun data_dict i =>
       if (1 <? i)%nat
       then match nth_error in_list i with
            | None => Failed (Python IndexError)
            | Some row =>
                if burnup =? 33 then record_nuclide row 2 data_dict
                else if burnup =? 51 then record_nuclide row 4 data_dict
                else record_nuclide row 6 data_dict
            end
       else Done data_dict)
    [].

(** ** Output files *)

(** The values a reactor template is rendered with.  [assem_size] is a
    division of two whole numbers carried out in doubles; its operands are
    kept. *)
Record reactor_config := {
  c_name : str;
  c_lifetime : Z;
  c_assem_size : Z * Z;
  c_n_assem_core : Z;
  c_n_assem_batch : Z;
  c_power_cap : str;
  c_lon : value;
  c_lat : value
}.

(** A file the script writes.  The text is the rendering of a template,
    which is the template engine's work; a file is kept as the template's
    kind and the values it is rendered with. *)
Inductive document :=
| Reactor (config : reactor_config)
| Deployinst (reactors : list (str * Z))
| Inclusions (reactors : list (str * (str * Z))).

(** What a run leaves behind: the files written, oldest first, each with
    its path, and the exception that ended the run, if one did. *)
Definition outcome : Type := list (str * document) * option exn.

(** A loop that writes at most one file per item; the files written before
    an exception stay written. *)
Fixpoint write_each {A} (items : list A)
  (body : A -> result (option (str * document))) : outcome :=
  match items with
  | [] => ([], None)
  | x :: rest =>
      match body x with
      | Raise e => ([], Some e)
      | Ok None => write_each rest body
      | Ok (Some file) =>
          let (files, raised) := write_each rest body in (file :: files, raised)
      end
  end.

(** [out_path], with a slash added unless it ends in one. *)
Definition with_slash (out_path : str) : result str :=
  c <- getitem out_path (-1) ;;
  if negb (c =? 47)%N then Ok (out_path ++ py "/") else Ok out_path.

(** [x >= n] for a float [x] and an integer [n]. *)
Definition float_ge (x : pyfloat) (n : Z) : bool :=
  match x with
  | Finite q => match (inject_Z n ?= q)%Q with Gt => false | _ => true end
  | Inf negative => negb negative
  | NaN => false
  end.

(** The branch of [write_reactors] on the reactor type: [assem_no],
    [assem_per_batch] and the operands of [assem_size]. *)
Definition assemblies (reactor_type : str) : Z * Z * (Z * Z) :=
  if member reactor_type [py "BWR"; py "ESBWR"] then
    let assem_no := 732 in
    (assem_no, int (inject_Z assem_no / inject_Z 3), (138000, assem_no))
  else if member reactor_type [py "GCR"; py "HWGCR"] then
    let assem_no := 324 in
    (assem_no, int (inject_Z assem_no / inject_Z 3), (114000, assem_no))
  else if str_eqb reactor_type (py "HTGR") then
    let assem_no := 3944 in
    (assem_no, int (inject_Z assem_no / inject_Z 3), (39000, assem_no))
  else if str_eqb reactor_type (py "PHWR") then
    let assem_no := 390 in
    (assem_no, int (inject_Z assem_no / inject_Z 45), (80000, assem_no))
  else if str_eqb reactor_type (py "VVER") then
    let assem_no := 312 in
    (assem_no, int (inject_Z assem_no / inject_Z 3), (41500, assem_no))
  else if str_eqb reactor_type (py "VVER-1200") then
    let assem_no := 163 in
    (assem_no, int (inject_Z assem_no / inject_Z 3), (80000, assem_no))
  else
    let assem_no := 241 in
    (assem_no, int (inject_Z assem_no / inject_Z 3), (103000, assem_no)).

(** [row[i] if row[i] != '' else 0]. *)
Definition or_zero (cell : str) : value :=
  if negb (str_eqb cell []) then VStr cell else VNum (inject_Z 0).

(** The body of the loop of [write_reactors]: the file written for a row,
    if any. *)
Definition write_reactor `{Library} (out_path : str) (row : csv_row)
  : result (option (str * document)) :=
  capacity <- field row 3 ;;
  capacity <- match float capacity with
              | Some x => Ok x
              | None => Raise (FloatError capacity)
              end ;;
  if float_ge capacity 400
  then
    name <- field row 1 ;;
    let name := replace (py " ") (py "_") name in
    reactor_type <- field row 2 ;;
    latitude <- field row 13 ;;
    let latitude := or_zero latitude in
    longitude <- field row 14 ;;
    let longitude := or_zero longitude in
    let '(assem_no, assem_per_batch, assem_size) := assemblies reactor_type in
    lifetime <- get_lifetime row ;;
    power_cap <- field row 3 ;;
    let config := {| c_name := name;
                     c_lifetime := lifetime;
                     c_assem_size := assem_size;
                     c_n_assem_core := assem_no;
                     c_n_assem_batch := assem_per_batch;
                     c_power_cap := power_cap;
                     c_lon := longitude;
                     c_lat := latitude |} in
    Ok (Some (out_path ++ replace (py " ") (py "_") name ++ py ".xml",
              Reactor config))
  else Ok None.

Definition write_reactors `{Library} (in_list : list csv_row) (out_path : str)
  : outcome :=
  match with_slash out_path with
  | Raise e => ([], Some e)
  | Ok out_path => write_each in_list (write_reactor out_path)
  end.

(** [obtain_reactors], from the rows [import_csv] returns. *)
Definition obtain_reactors `{Library} (in_csv : list csv_row) (region : str)
  : outcome :=
  let in_data := in_csv in
  match select_region in_data region with
  | Raise e => ([], Some e)
  | Ok reactor_list =>
      let out_path := py "cyclus/input/" ++ region ++ py "/reactors" in
      write_reactors reactor_list out_path
  end.

(** The inner loop of [write_deployment]: the reactors of one nation. *)
Definition nation_reactors (in_dict : list (str * (str * Z))) (nation : str)
  : list (str * Z) :=
  fold_left
    (fun temp_dict reactor =>
       match lookup reactor in_dict with
       | Some (country, buildtime) =>
           if str_eqb (upper country) (upper nation)
           then update reactor buildtime temp_dict
           else temp_dict
       | None => temp_dict
       end)
    (keys in_dict) [].

(** [write_deployment].  [country_list] is a set; [nations] is its
    elements in the order the set yields them, which Python leaves open. *)
Definition write_deployment (in_dict : list (str * (str * Z))) (out_path : str)
  (nations : list str) : outcome :=
  match with_slash out_path with
  | Raise e => ([], Some e)
  | Ok out_path =>
      (map (fun nation =>
              (out_path ++ replace (py " ") (py "_") nation
                        ++ py "/deployinst.xml",
               Deployinst (nation_reactors in_dict nation)))
           nations
       ++ [(out_path ++ py "inclusions.xml", Inclusions in_dict)],
       None)
  end.

(** [deploy_reactors], from the rows [import_csv] returns and the names
    [os.listdir(reactors_path)] returns: the files written and, when no
    exception ends the run, the dictionary returned. *)
Definition deploy_reactors `{Library} (in_csv : list csv_row) (region : str)
  (start_year : Z) (reactors_path : str) (listdir : list str)
  (deployment_path : str) (nations : list str)
  : outcome * option (list (str * (str * Z))) :=
  match with_slash reactors_path with
  | Raise e => (([], Some e), None)
  | Ok reactors_path =>
      let lists := map (fun files => reactors_path ++ files) listdir in
      let in_data := in_csv in
      match select_region in_data region with
      | Raise e => (([], Some e), None)
      | Ok reactor_list =>
          match get_buildtime reactor_list start_year lists with
          | Raise e => (([], Some e), None)
          | Ok buildtime =>
              let written := write_deployment buildtime deployment_path nations in
              (written, match snd written with
                        | None => Some buildtime
                        | Some _ => None
                        end)
          end
      end
  end.

(** ** Recipe files *)

(** The values the script passes in a call of [write_recipes]. *)
Inductive argument :=
| Composition (d : list (Z * pyfloat))
| Template
| Integer (n : Z)
| Text (s : str).

(** The file [cyclus/input/<region>/recipes//uox_<burnup>.xml], kept as
    the region and the burnup it is named after, with the two values its
    template is rendered with. *)
Record recipe_file := {
  r_region : str;
  r_burnup : argument;
  r_fresh : argument;
  r_spent : argument
}.

(** [write_recipes], from the positional arguments of a call.  The five
    parameters have no default, so that a call with another number of
    arguments raises [TypeError] before the body runs.  In the body,
    ['cyclus/input/' + region] needs a text and [in_template.render] a
    template. *)
Definition write_recipes (args : list argument)
  : list recipe_file * option recipe_exn :=
  match args with
  | [fresh_dict; spent_dict; in_template; burnup; region] =>
      match region with
      | Text region =>
          match in_template with
          | Template =>
              ([{| r_region := region; r_burnup := burnup;
                   r_fresh := fresh_dict; r_spent := spent_dict |}], None)
          | _ => ([], Some (Python AttributeError))
          end
      | _ => ([], Some (Python TypeError))
      end
  | _ => ([], Some (Python TypeError))
  end.

(** [produce_recipes], from the rows [import_csv] returns.  The arguments
    of the call are evaluated from left to right. *)
Definition produce_recipes `{Library} `{Nuclides} (in_csv : list csv_row)
  (burnup : Z) : list recipe_file * option recipe_exn :=
  let recipe := in_csv in
  match get_composition_fresh recipe burnup with
  | Failed e => ([], Some e)
  | Done fresh =>
      match get_composition_spent recipe burnup with
      | Failed e => ([], Some e)
      | Done spent =>
          write_recipes [Composition fresh; Composition spent; Template;
                         Integer burnup]
      end
  end.

(** ** A reference implementation of the library routines

    Used where a statement needs the routines' values on given texts.
    [reference_ratio] is the score fuzzywuzzy computes with
    python-Levenshtein: 100 for equal texts, 0 when one is empty, and
    otherwise twice the length of a longest common subsequence over the
    sum of the lengths, as a rounded percentage.  [reference_float] reads
    a plain decimal literal and gives its exact value.  [reference_date]
    reads the calendar form YYYY-MM-DD, which dateutil reads as that day
    at midnight, with no time zone. *)

Fixpoint lcs_row (x : char) (b : str) (above : list N) (diag left : N) : list N :=
  match b, above with
  | y :: b', up :: above' =>
      let cur := if (x =? y)%N then (diag + 1)%N else N.max up left in
      cur :: lcs_row x b' above' up cur
  | _, _ => []
  end.

Definition lcs (a b : str) : N :=
  last (fold_left (fun line x => lcs_row x b line 0%N 0%N) a
                  (map (fun _ => 0%N) b)) 0%N.

Definition reference_ratio (s1 s2 : str) : Z :=
  if str_eqb s1 s2 then 100
  else if (len s1 =? 0) || (len s2 =? 0) then 0
  else round (inject_Z (100 * (2 * Z.of_N (lcs s1 s2)))
              / inject_Z (len s1 + len s2)).

Fixpoint take_digits (acc count : Z) (s : str) : Z * Z * str :=
  match s with
  | c :: s' =>
      if is_digit c then take_digits (acc * 10 + (Z.of_N c - 48)) (count + 1) s'
      else (acc, count, s)
  | [] => (acc, count, [])
  end.

Definition take_sign (s : str) : bool * str :=
  match s with
  | c :: r => if (c =? 45)%N then (true, r)
              else if (c =? 43)%N then (false, r)
              else (false, s)
  | [] => (false, [])
  end.

Definition decimal (negative : bool) (mantissa scale exponent : Z) : pyfloat :=
  let m := if negative then - mantissa else mantissa in
  let e := exponent - scale in
  if e <? 0 then Finite (m # Z.to_pos (10 ^ (- e)))
  else Finite (inject_Z (m * 10 ^ e)).

Definition reference_float (s : str) : option pyfloat :=
  let '(negative, t) := take_sign (strip s) in
  let l := lower t in
  if str_eqb l (py "inf") || str_eqb l (py "infinity") then Some (Inf negative)
  else if str_eqb l (py "nan") then Some NaN
  else
    let '(ip, ni, r1) := take_digits 0 0 t in
    let '(m, nf, r2) :=
      match r1 with
      | c :: r => if (c =? 46)%N then take_digits ip 0 r else (ip, 0, r1)
      | [] => (ip, 0, [])
      end in
    if ni + nf =? 0 then None
    else
      match r2 with
      | [] => Some (decimal negative m nf 0)
      | c :: r =>
          if (c =? 101)%N || (c =? 69)%N then
            let '(eneg, r) := take_sign r in
            let '(ev, ne, r3) := take_digits 0 0 r in
            if (ne =? 0) || negb (str_eqb r3 []) then None
            else Some (decimal negative m nf (if eneg then - ev else ev))
          else None
      end.

Definition number (digits : Z) (s : str) : option Z :=
  let '(v, n, r) := take_digits 0 0 s in
  if (n =? digits) && str_eqb r [] then Some v else None.

Definition reference_date (s : str) : option datetime :=
  match number 4 (firstn 4 s), number 2 (firstn 2 (skipn 5 s)),
        number 2 (skipn 8 s) with
  | Some y, Some m, Some d =>
      if (len s =? 10) && (nth 4 s 0 =? 45)%N && (nth 7 s 0 =? 45)%N
         && (1 <=? y) && (1 <=? m) && (m <=? 12)
         && (1 <=? d) && (d <=? days_in_month y m)
      then Some {| year := y; month := m; day := d; tod := 0; utcoffset := None |}
      else None
  | _, _, _ => None
  end.

Definition reference : Library := {|
  fuzz_ratio := reference_ratio;
  date_parse := reference_date;
  float := reference_float
|}.

(** * Vocabulary of the statements *)

(** ** Reactor names *)

(** Whether a text ends in a decimal digit. *)
Definition ends_in_digit (s : str) : bool := is_digit (last s 0%N).

(** The normalised reactor name as a function: where [sanitize_pris_name]
    cuts, in terms of the first hyphen [i] and of the offset [j] of the
    next hyphen in the text after it. *)
Definition pris_name_of (name : str) : str :=
  let s := lower name in
  let i := find (py "-") s in
  let j := find (py "-") (skipn (Z.to_nat (i + 1)) s) in
  if negb (i =? -1) && ends_in_digit s
  then if j =? -1 then firstn (Z.to_nat i) s else firstn (Z.to_nat (i + j)) s
  else s.

(** ** Filter and dates *)

(** The library reads [s] as the whole number [n]. *)
Definition float_is `{Library} (s : str) (n : Z) : Prop :=
  exists q, float s = Some (Finite q) /\ (q == inject_Z n)%Q.

(** The region names the script accepts. *)
Definition region_names : list str :=
  [py "ASIA"; py "AFRICA"; py "EUROPE"; py "SOUTH_AMERICA";
   py "NORTH_AMERICA"; py "UNITED_STATES"; py "ALL"].

(** Midnight of a calendar day, with no time zone. *)
Definition midnight (y m d : Z) : datetime :=
  {| year := y; month := m; day := d; tod := 0; utcoffset := None |}.

(** A row of fifteen fields with the given commercial and shutdown dates. *)
Definition dated_row (comm_date shutdown_date : str) : csv_row :=
  [py "JAPAN"; py "OHI-1"; py "PWR"; py "1120"; []; []; []; []; []; [];
   comm_date; shutdown_date; []; []; []].

(** ** Build offsets and file names *)

(** The name [get_buildtime] compares with a file name, the country and
    the commercial date of a row. *)
Definition row_name (row : csv_row) : str :=
  replace (py " ") (py "_") (nth 1 row []).

Definition row_country (row : csv_row) : str := nth 0 row [].

Definition parseable `{Library} (row : csv_row) : bool :=
  match nth_error row 10 with
  | Some comm_date =>
      match date_parse comm_date with Some _ => true | None => false end
  | None => false
  end.

(** What [get_buildtime] takes for the file name of a path. *)
Definition file_name_of (reactor : str) : str :=
  replace (py "/") [] (replace (dirname reactor) [] reactor).

(** Whether some path of the list yields the file name [name + '.xml']. *)
Definition listed (path_list : list str) (name : str) : bool :=
  existsb (fun reactor => str_eqb (name ++ py ".xml") (file_name_of reactor))
          path_list.

(** The offset the script computes from a parsed commercial date. *)
Definition build_offset (d : datetime) (start_year : Z) : Z :=
  (year d - start_year) * 12 + month d + round (inject_Z (day d) / (365 # 12)).

Definition row_offset `{Library} (start_year : Z) (row : csv_row) : Z :=
  match date_parse (nth 10 row []) with
  | Some d => build_offset d start_year
  | None => 0
  end.

(** The dictionary after the rows [in_list], from the dictionary [d]. *)
Definition schedule `{Library} (start_year : Z) (path_list : list str)
  (in_list : list csv_row) (d : list (str * (str * Z))) : list (str * (str * Z)) :=
  fold_left
    (fun d row =>
       if listed path_list (row_name row)
       then update (row_name row) (row_country row, row_offset start_year row) d
       else d)
    in_list d.

(** [posixpath.basename]: the final component of a path. *)
Definition basename (p : str) : str := slice_from (rfind (py "/") p + 1) p.

(** A path [dir/file]: [dir] is not empty and does not end in a slash,
    [file] holds no slash, and [dir] does not occur in [/file]. *)
Definition plain_path (p : str) : Prop :=
  exists dir file,
    p = dir ++ 47%N :: file
    /\ hd_error (rev dir) <> None
    /\ hd_error (rev dir) <> Some 47%N
    /\ ~ In 47%N file
    /\ find dir (47%N :: file) = -1.

(** A row of the reactor table with the given country, name and
    commercial date. *)
Definition reactor_row (country name comm_date : str) : csv_row :=
  [country; name; py "PWR"; py "900"; []; []; []; []; []; [];
   comm_date; []; []; []; []].

(** ** Rows, geo points and the match rule *)

(** Assignment to a cell that exists. *)
Definition put (i : nat) (v : value) (r : row) : row :=
  firstn i r ++ v :: skipn (S i) r.

Definition put_coords (web : geo) (prs : row) : row :=
  put 14 (g_long web) (put 13 (g_lat web) prs).

(** The edge-case test for one entry of the table, and the whole rule. *)
Definition edge_hit `{Library} (webscrape_name pris_name : str) (other : str * str)
  : bool :=
  (80 <? fuzz_ratio pris_name (lower (fst other)))
  && (75 <? fuzz_ratio webscrape_name (lower (snd other))).

Definition match_rule `{Library} (webscrape_name pris_name : str) : bool :=
  (78 <? fuzz_ratio webscrape_name pris_name)
  || existsb (edge_hit webscrape_name pris_name) get_edge_cases.

(** A row of the reactor file once the two coordinate columns are in place
    and the blanks are filled. *)
Definition prepare (r : row) : row :=
  map fill_blank (firstn 13 r) ++ VStr [] :: VStr [] :: map fill_blank (skipn 13 r).

(** The name of a row and of a geo point, as text. *)
Definition name_of (r : row) : str :=
  match nth_error r 1 with
  | Some (VStr s) => s
  | _ => []
  end.

Definition geo_name (web : geo) : str :=
  match g_name web with
  | VStr s => s
  | _ => []
  end.

(** Whether the merge's rule holds between a geo point and a row. *)
Definition row_matches `{Library} (web : geo) (r : row) : bool :=
  match_rule (sanitize_webscrape_name (geo_name web)) (pris_name_of (name_of r)).

(** The rows and points the merge works on without raising: the name of a
    row is text or blank, the name of a point is text. *)
Definition has_name (r : row) : bool :=
  match nth_error r 1 with
  | Some (VStr _) | Some VNull => true
  | _ => false
  end.

Definition named (web : geo) : bool :=
  match g_name web with
  | VStr _ => true
  | _ => false
  end.

Definition well_formed (pris : frame) (coords : list geo) : bool :=
  (13 <=? ncols pris)%nat
  && forallb (fun r => (length r =? ncols pris)%nat && has_name r) (rows pris)
  && forallb named coords.

(** A row of the imported frame: wide enough, with a text name. *)
Definition ready (r : row) : Prop :=
  (15 <= length r)%nat /\ nth_error r 1 = Some (VStr (name_of r)).

(** What the body does to a ready row. *)
Definition step `{Library} (web : geo) (r : row) : row :=
  if row_matches web r then put_coords web r else r.

(** The last geo point of the list that matches a row, if any. *)
Definition last_match `{Library} (coords : list geo) (r : row) : option geo :=
  List.find (fun web => row_matches web r) (rev coords).

(** The merged frame, row by row. *)
Definition merged_row `{Library} (coords : list geo) (r : row) : row :=
  match last_match coords r with
  | Some web => put_coords web (prepare r)
  | None => prepare r
  end.




(** ** Sample tables *)

(** A row of the reactor file as [read_csv] gives it, thirteen cells. *)
Definition pris_row (name : str) : row :=
  [VStr (py "JAPAN"); VStr name; VStr (py "PWR"); VNum (inject_Z 900);
   VNull; VNull; VNull; VNull; VNull; VNull; VStr (py "1985-06-01");
   VNull; VNull].

Definition table (names : list str) : frame :=
  {| ncols := 13; rows := map pris_row names |}.

Definition point (name : str) (long lat : Z) : geo :=
  {| g_name := VStr name;
     g_long := VNum (inject_Z long);
     g_lat := VNum (inject_Z lat) |}.


(** ** The rows [select_region] keeps *)

(** The body of the loop of [select_region]. *)
Definition select_body `{Library} (region : str) (reactor_list : list csv_row)
  (row : csv_row) : result (list csv_row) :=
  country <- field row 0 ;;
  if in_region region country
  then
    capacity <- field row 3 ;;
    start_date <- field row 10 ;;
    deployed <- confirm_deployment start_date capacity ;;
    if deployed : bool then Ok (reactor_list ++ [row]) else Ok reactor_list
  else Ok reactor_list.

(** A row that passes both tests of [select_region]. *)
Definition selected `{Library} (region : str) (row : csv_row) : bool :=
  in_region region (nth 0 row [])
  && match confirm_deployment (nth 10 row []) (nth 3 row []) with
     | Ok true => true
     | _ => false
     end.

(** A row that [select_region] gets through without raising: it has a
    country and, when the country is of the region, at least eleven fields
    and a capacity that the deployment check accepts or never converts. *)
Definition readable `{Library} (region : str) (row : csv_row) : bool :=
  match row with
  | [] => false
  | country :: _ =>
      if in_region region country
      then (11 <=? length row)%nat
           && match confirm_deployment (nth 10 row []) (nth 3 row []) with
              | Ok _ => true
              | Raise _ => false
              end
      else true
  end.

(** What an unreadable row raises. *)
Definition row_error (row : csv_row) : exn :=
  if (length row <? 11)%nat then IndexError else FloatError (nth 3 row []).

(** ** White space in a normalised name *)

(** Every blank of the text is one space, with no blank before it:
    [after_blank] says whether the text comes after a blank or at the
    start.  The text may not end in a blank. *)
Fixpoint spaced (after_blank : bool) (s : str) : bool :=
  match s with
  | [] => negb after_blank
  | c :: s' =>
      if is_space c
      then (c =? 32)%N && negb after_blank && spaced true s'
      else spaced false s'
  end.

(** A word: not empty and without a blank. *)
Definition word (w : str) : Prop :=
  w <> [] /\ forallb (fun c => negb (is_space c)) w = true.

(** The hyphen, as a character. *)
Definition hyphen : char := 45%N.

(** ** Recipes *)

(** The column the compositions read: [first] for a burnup of 33, two
    further for 51, four further for any other burnup. *)
Definition column_of (first : nat) (burnup : Z) : nat :=
  if burnup =? 33 then first else if burnup =? 51 then (first + 2)%nat
  else (first + 4)%nat.

(** The identifier and the amount a row gives, read as [record_nuclide]
    reads them. *)
Definition nuclide_entry `{Library} `{Nuclides} (column : nat) (row : csv_row)
  : attempt (Z * pyfloat) :=
  match nth_error row 0 with
  | None => Failed (Python IndexError)
  | Some name =>
      match nn_id name with
      | None => Failed (NucnameError name)
      | Some key =>
          match nth_error row column with
          | None => Failed (Python IndexError)
          | Some amount =>
              match float amount with
              | None => Failed (Python (FloatError amount))
              | Some x => Done (key, x)
              end
          end
      end
  end.

(** A row that gives an entry. *)
Definition gives_entry `{Library} `{Nuclides} (column : nat) (row : csv_row) : bool :=
  match nuclide_entry column row with
  | Done _ => true
  | Failed _ => false
  end.

(** The identifier a row gives, if it gives an entry. *)
Definition entry_key `{Library} `{Nuclides} (column : nat) (row : csv_row) : option Z :=
  match nuclide_entry column row with
  | Done (key, _) => Some key
  | Failed _ => None
  end.

(** The loop over the rows after the two header rows. *)
Definition compose `{Library} `{Nuclides} (column : nat) (body : list csv_row)
  (data_dict : list (Z * pyfloat)) : attempt (list (Z * pyfloat)) :=
  attempt_each body (fun data_dict row => record_nuclide row column data_dict)
               data_dict.

(** A row without its second field: every later field moves down by one. *)
Definition shift_left (row : csv_row) : csv_row :=
  match row with
  | name :: _ :: rest => name :: rest
  | _ => row
  end.

(** The two tables used in the examples: names of nuclides, and rows of a
    recipe file. *)
Definition sample_nuclides : Nuclides := {|
  nn_id := fun name =>
             if str_eqb name (py "U235") then Some 922350000
             else if str_eqb name (py "92235") then Some 922350000
             else if str_eqb name (py "U238") then Some 922380000
             else None
|}.

Definition sample_recipe : list csv_row :=
  [[py "Isotope"; py "33"; py "33"; py "51"; py "51"; py "100"; py "100"];
   [py ""; py "fresh"; py "spent"; py "fresh"; py "spent"; py "fresh"; py "spent"];
   [py "U235"; py "0.032"; py "0.008"; py "0.043"; py "0.007"; py "0.07"; py "0.01"];
   [py "U238"; py "0.968"; py "0.95"; py "0.957"; py "0.93"; py "0.93"; py "0.9"];
   [py "92235"; py "0.033"; py "0.009"; py "0.044"; py "0.006"; py "0.071"; py "0.011"]].

(** ** Reactor files *)

(** The values [write_reactors] renders for a row whose lifetime is
    known. *)
Definition config_of `{Library} (row : csv_row) : reactor_config :=
  let '(assem_no, assem_per_batch, assem_size) := assemblies (nth 2 row []) in
  {| c_name := row_name row;
     c_lifetime := match get_lifetime row with Ok n => n | Raise _ => 0 end;
     c_assem_size := assem_size;
     c_n_assem_core := assem_no;
     c_n_assem_batch := assem_per_batch;
     c_power_cap := nth 3 row [];
     c_lon := or_zero (nth 14 row []);
     c_lat := or_zero (nth 13 row []) |}.

(** The file of a row under the directory [out_path], which ends in a
    slash. *)
Definition file_in `{Library} (out_path : str) (row : csv_row) : str * document :=
  (out_path ++ row_name row ++ py ".xml", Reactor (config_of row)).

(** The file [obtain_reactors] writes for a row. *)
Definition reactor_file `{Library} (region : str) (row : csv_row) : str * document :=
  file_in (py "cyclus/input/" ++ region ++ py "/reactors/") row.

(** A row with the fifteen fields [write_reactors] reads and a lifetime
    that [get_lifetime] computes. *)
Definition complete `{Library} (row : csv_row) : bool :=
  (15 <=? length row)%nat
  && match get_lifetime row with Ok _ => true | Raise _ => false end.

(** ** Deployment files *)




(** The directory [obtain_reactors] writes to. *)
Definition reactors_dir (region : str) : str :=
  py "cyclus/input/" ++ region ++ py "/reactors".

(** * Properties *)

(** ** Text *)

Lemma len_nonneg (s : str) : 0 <= len s.
Proof. unfold len. lia. Qed.

Lemma find_cons (sub s : str) (c : char) :
  find sub (c :: s) =
  if starts_with sub (c :: s) then 0
  else if find sub s =? -1 then -1 else find sub s + 1.
Proof. reflexivity. Qed.

(** [find] answers [-1] or a position where a non-empty [sub] fits. *)
Lemma find_range (c : char) (sub s : str) :
  find (c :: sub) s = -1 \/ 0 <= find (c :: sub) s < len s.
Proof.
  induction s as [|x s IH].
  - left. reflexivity.
  - rewrite find_cons.
    destruct (starts_with (c :: sub) (x :: s)).
    + right. unfold len. simpl length. lia.
    + destruct IH as [IH | IH].
      * rewrite IH. left. reflexivity.
      * destruct (Z.eqb_spec (find (c :: sub) s) (-1)) as [E | E]; [lia|].
        right. unfold len in *. simpl length. lia.
Qed.

Lemma slice_to_firstn (k : Z) (s : str) :
  0 <= k <= len s -> slice_to k s = firstn (Z.to_nat k) s.
Proof.
  intros Hk. unfold slice_to, clamp.
  destruct (Z.ltb_spec k 0) as [Hlt | _]; [lia|].
  rewrite Z.min_r by lia. reflexivity.
Qed.

Lemma slice_from_skipn (k : Z) (s : str) :
  0 <= k <= len s -> slice_from k s = skipn (Z.to_nat k) s.
Proof.
  intros Hk. unfold slice_from, clamp.
  destruct (Z.ltb_spec k 0) as [Hlt | _]; [lia|].
  rewrite Z.min_r by lia. reflexivity.
Qed.

Lemma nth_error_last (s : str) (d : char) :
  s <> [] -> nth_error s (length s - 1) = Some (last s d).
Proof.
  induction s as [|x s IH]; [congruence|].
  intros _. destruct s as [|y s].
  - reflexivity.
  - replace (length (x :: y :: s) - 1)%nat with (S (length (y :: s) - 1))
      by (simpl; lia).
    change (nth_error (x :: y :: s) (S (length (y :: s) - 1)))
      with (nth_error (y :: s) (length (y :: s) - 1)).
    rewrite IH by congruence. reflexivity.
Qed.

(** [s[-1]] is the last character of a non-empty text. *)
Lemma getitem_last (s : str) :
  s <> [] -> getitem s (-1) = Ok (last s 0%N).
Proof.
  intros Hs. unfold getitem.
  assert (Hl : 1 <= len s).
  { unfold len. destruct s; [congruence | simpl length; lia]. }
  change (-1 <? 0) with true. cbv iota.
  destruct (Z.leb_spec 0 (len s + -1)) as [_ | H]; [|lia].
  destruct (Z.ltb_spec (len s + -1) (len s)) as [_ | H]; [|lia].
  simpl andb. cbv iota.
  replace (Z.to_nat (len s + -1)) with (length s - 1)%nat by (unfold len; lia).
  rewrite (nth_error_last s 0%N Hs). reflexivity.
Qed.

Lemma lstrip_single (c : char) :
  lstrip [c] = if is_space c then [] else [c].
Proof. reflexivity. Qed.

Lemma space_not_digit (c : char) : is_space c = true -> is_digit c = false.
Proof.
  intros H. destruct (is_digit c) eqn:D; [|reflexivity].
  unfold is_space, is_digit, between in *.
  rewrite ?orb_true_iff, ?andb_true_iff, ?N.leb_le, ?N.eqb_eq in *.
  lia.
Qed.

(** On one character, [is_int] is the test for a decimal digit. *)
Lemma is_int_single (c : char) : is_int [c] = is_digit c.
Proof.
  unfold is_int, strip, rstrip.
  rewrite lstrip_single.
  destruct (is_space c) eqn:Hs.
  - simpl. symmetry. apply space_not_digit. exact Hs.
  - change (rev [c]) with [c]. rewrite lstrip_single, Hs.
    change (rev [c]) with [c]. cbv iota beta.
    destruct (N.eqb_spec c 43) as [-> | H43]; [reflexivity|].
    destruct (N.eqb_spec c 45) as [-> | H45]; [reflexivity|].
    simpl orb. cbv iota. simpl.
    destruct (is_digit c); [reflexivity|].
    rewrite andb_false_r. reflexivity.
Qed.

Lemma find_not_empty (c : char) (sub s : str) :
  find (c :: sub) s <> -1 -> s <> [].
Proof. intros H E. subst s. apply H. reflexivity. Qed.

(** [sanitize_pris_name] always returns, and returns [pris_name_of]. *)
Lemma sanitize_pris_name_ok (name : str) :
  sanitize_pris_name name = Ok (pris_name_of name).
Proof.
  unfold sanitize_pris_name, pris_name_of.
  generalize (lower name). intros s.
  change (py "-") with (@cons char 45%N (@nil char)).
  pose proof (find_range 45%N [] s) as Hi.
  pose proof (find_not_empty 45%N [] s) as Hne.
  remember (find (@cons char 45%N (@nil char)) s) as i eqn:Ei. clear Ei.
  destruct Hi as [Hi | Hi].
  - subst i. reflexivity.
  - destruct (Z.eqb_spec i (-1)) as [E | E]; [lia|].
    simpl negb. cbv iota.
    rewrite getitem_last by (apply Hne; lia).
    unfold bind. rewrite is_int_single. fold (ends_in_digit s).
    rewrite andb_true_l.
    destruct (ends_in_digit s); [|reflexivity].
    rewrite slice_from_skipn by lia.
    assert (Hrest : len (skipn (Z.to_nat (i + 1)) s) = len s - (i + 1)).
    { unfold len. rewrite length_skipn. unfold len in Hi. lia. }
    pose proof (find_range 45%N [] (skipn (Z.to_nat (i + 1)) s)) as Hj.
    remember (find (@cons char 45%N (@nil char)) (skipn (Z.to_nat (i + 1)) s))
      as j eqn:Ej. clear Ej.
    destruct Hj as [Hj | Hj].
    + subst j. simpl negb. cbv iota.
      rewrite slice_to_firstn by lia. reflexivity.
    + destruct (Z.eqb_spec j (-1)) as [E' | E']; [lia|].
      simpl negb. cbv iota.
      rewrite slice_to_firstn by lia. reflexivity.
Qed.

(** C8.  [sanitize_pris_name] lower-cases its input.  When the lower-cased
    name contains a hyphen and ends in a numeral, the result is the name cut
    at the first hyphen if no hyphen follows it, and otherwise cut at the
    index that is the first hyphen's position plus the offset of the next
    hyphen within the text after the first.  Every other name is returned
    lower-cased and otherwise unchanged.  ["OHI-1"] gives ["ohi"]; by the
    same index, ["SHIN-KORI-1"] gives ["shin-kor"]. *)
Theorem sanitize_pris_name_spec :
  (forall name : str,
      let s := lower name in
      let i := find (py "-") s in
      let j := find (py "-") (skipn (Z.to_nat (i + 1)) s) in
      sanitize_pris_name name =
      Ok (if negb (i =? -1) && ends_in_digit s
          then if j =? -1 then firstn (Z.to_nat i) s
               else firstn (Z.to_nat (i + j)) s
          else s))
  /\ sanitize_pris_name (py "OHI-1") = Ok (py "ohi")
  /\ sanitize_pris_name (py "SHIN-KORI-1") = Ok (py "shin-kor").
Proof.
  split; [|split].
  - intros name. apply sanitize_pris_name_ok.
  - reflexivity.
  - reflexivity.
Qed.

(** ** The deployment check *)

Lemma float_gt_finite (q : Q) (n : Z) :
  float_gt (Finite q) n = true <-> (inject_Z n < q)%Q.
Proof.
  unfold float_gt. rewrite Qlt_alt.
  destruct (inject_Z n ?= q)%Q; split; congruence.
Qed.

Lemma confirm_deployment_true `{Library} (date_str capacity : str) :
  confirm_deployment date_str capacity = Ok true <->
  4 < len date_str
  /\ (exists x, float capacity = Some x /\ float_gt x 400 = true)
  /\ (exists d, date_parse date_str = Some d).
Proof.
  unfold confirm_deployment.
  destruct (Z.ltb_spec 4 (len date_str)) as [Hl | Hl].
  - destruct (float capacity) as [x|] eqn:Hf; unfold bind.
    + destruct (float_gt x 400) eqn:Hg.
      * destruct (date_parse date_str) as [d|] eqn:Hd.
        -- split; [intros _ | reflexivity].
           split; [exact Hl|]. split; [exists x | exists d]; auto.
        -- split; [discriminate|]. intros (_ & _ & d & Hd'). discriminate.
      * split; [discriminate|].
        intros (_ & (x' & Hx & Hg') & _). congruence.
    + split; [discriminate|]. intros (_ & (x' & Hx & _) & _). discriminate.
  - unfold bind. split; [discriminate|]. intros (Hl' & _). lia.
Qed.

Lemma confirm_deployment_short `{Library} (date_str capacity : str) :
  len date_str <= 4 -> confirm_deployment date_str capacity = Ok false.
Proof.
  intros Hl. unfold confirm_deployment.
  destruct (Z.ltb_spec 4 (len date_str)); [lia | reflexivity].
Qed.

Lemma confirm_deployment_unparsed `{Library} (date_str capacity : str) :
  date_parse date_str = None -> float capacity <> None ->
  confirm_deployment date_str capacity = Ok false.
Proof.
  intros Hd Hf. unfold confirm_deployment. rewrite Hd.
  destruct (4 <? len date_str); [|reflexivity].
  destruct (float capacity) as [x|]; [|congruence].
  unfold bind. destruct (float_gt x 400); reflexivity.
Qed.

(** What [confirm_deployment] can raise is the conversion error of its
    capacity argument, and nothing else. *)
Lemma confirm_deployment_raises `{Library} (date_str capacity : str) (e : exn) :
  confirm_deployment date_str capacity = Raise e ->
  e = FloatError capacity /\ float capacity = None /\ 4 < len date_str.
Proof.
  unfold confirm_deployment.
  destruct (Z.ltb_spec 4 (len date_str)) as [Hl | Hl].
  - destruct (float capacity) as [x|]; unfold bind.
    + destruct (float_gt x 400); [destruct (date_parse date_str)|]; discriminate.
    + intros E. inversion E. auto.
  - unfold bind. discriminate.
Qed.

(** C3.  [confirm_deployment] returns [True] exactly when the date text is
    longer than 4, the capacity converts to a number above 400 and the date
    text parses.  A date that does not parse gives [False] and no error:
    the function never raises a parser error, and returns [False] whenever
    the capacity is a number.  The three examples hold for a library that
    reads ["900"] and ["300"] as those numbers and parses ["1985-06-01"]. *)
Theorem confirm_deployment_spec `{Library} :
  (forall date_str capacity,
      confirm_deployment date_str capacity = Ok true <->
      4 < len date_str
      /\ (exists x, float capacity = Some x /\ float_gt x 400 = true)
      /\ (exists d, date_parse date_str = Some d))
  /\ (forall date_str capacity,
         date_parse date_str = None -> float capacity <> None ->
         confirm_deployment date_str capacity = Ok false)
  /\ (forall date_str capacity s,
         confirm_deployment date_str capacity <> Raise (ParserError s))
  /\ (float_is (py "900") 900 -> date_parse (py "1985-06-01") <> None ->
      confirm_deployment (py "1985-06-01") (py "900") = Ok true)
  /\ confirm_deployment (py "") (py "900") = Ok false
  /\ (float_is (py "300") 300 ->
      confirm_deployment (py "1985-06-01") (py "300") = Ok false).
Proof.
  split; [exact confirm_deployment_true|].
  split; [exact confirm_deployment_unparsed|].
  split.
  { intros d c s E. apply confirm_deployment_raises in E.
    destruct E as [E _]. discriminate. }
  split.
  { intros (q & Hq & Hv) Hd. apply confirm_deployment_true.
    split; [reflexivity|]. split.
    - exists (Finite q). split; [exact Hq|].
      apply float_gt_finite. rewrite Hv. reflexivity.
    - destruct (date_parse (py "1985-06-01")) as [d|]; [exists d; reflexivity|].
      congruence. }
  split.
  { apply confirm_deployment_short. unfold len. simpl. lia. }
  intros (q & Hq & Hv). unfold confirm_deployment.
  change (4 <? len (py "1985-06-01")) with true. cbv iota.
  rewrite Hq. unfold bind.
  assert (Hg : float_gt (Finite q) 400 = false).
  { destruct (float_gt (Finite q) 400) eqn:Hg; [|reflexivity].
    apply float_gt_finite in Hg. rewrite Hv in Hg.
    unfold Qlt in Hg. simpl in Hg. lia. }
  rewrite Hg. reflexivity.
Qed.

Lemma confirm_deployment_spec_witness :
  @confirm_deployment reference (py "1985-06-01") (py "900") = Ok true
  /\ @confirm_deployment reference (py "1985-06-01") (py "300") = Ok false
  /\ @confirm_deployment reference (py "unknown") (py "900") = Ok false.
Proof.
  pose proof (@confirm_deployment_spec reference)
    as (_ & Hunparsed & _ & H900 & _ & H300).
  split; [|split].
  - apply H900.
    + exists (inject_Z 900). split; reflexivity.
    + discriminate.
  - apply H300. exists (inject_Z 300). split; reflexivity.
  - apply Hunparsed; [reflexivity | discriminate].
Defined.

(** C9, as amended.  When the capacity text is not a number and the date
    text is longer than 4, [confirm_deployment] raises the conversion
    error of [float]. *)
Theorem confirm_deployment_bad_capacity `{Library} (date_str capacity : str) :
  float capacity = None ->
  4 < len date_str ->
  confirm_deployment date_str capacity = Raise (FloatError capacity).
Proof.
  intros Hf Hl. unfold confirm_deployment.
  destruct (Z.ltb_spec 4 (len date_str)); [|lia].
  rewrite Hf. reflexivity.
Qed.

Lemma confirm_deployment_bad_capacity_witness :
  @confirm_deployment reference (py "1985-06-01") (py "abc")
  = Raise (FloatError (py "abc")).
Proof.
  apply (@confirm_deployment_bad_capacity reference).
  - reflexivity.
  - reflexivity.
Defined.

(** C9, as stated, fails: with an empty date text the capacity is never
    converted, and a capacity that is no number gives [False]. *)
Lemma confirm_deployment_bad_capacity_short_date :
  @float reference (py "abc") = None
  /\ @confirm_deployment reference (py "") (py "abc") = Ok false.
Proof. split; reflexivity. Qed.

(** ** The region filter *)

Lemma str_eqb_eq (a b : str) : str_eqb a b = true <-> a = b.
Proof.
  unfold str_eqb. destruct (list_eq_dec N.eq_dec a b); split; congruence.
Qed.

Lemma member_In (x : str) (s : list str) : member x s = true <-> In x s.
Proof.
  unfold member. rewrite existsb_exists. split.
  - intros (y & Hy & E). apply str_eqb_eq in E. subst y. exact Hy.
  - intros Hx. exists x. split; [exact Hx | apply str_eqb_eq; reflexivity].
Qed.

Lemma keys_regions : keys regions = region_names.
Proof. reflexivity. Qed.

(** The loop of [select_region] raises no [ValueError] of the script's
    own: only a missing field or the capacity conversion can end it. *)
Lemma select_loop_no_value_error `{Library} (region : str) (in_list : list csv_row)
  (acc : list csv_row) (msg : str) :
  for_each in_list
    (fun reactor_list row =>
       country <- field row 0 ;;
       if in_region region country
       then
         capacity <- field row 3 ;;
         start_date <- field row 10 ;;
         deployed <- confirm_deployment start_date capacity ;;
         if deployed : bool then Ok (reactor_list ++ [row]) else Ok reactor_list
       else Ok reactor_list)
    acc <> Raise (ValueError msg).
Proof.
  revert acc. induction in_list as [|row rest IH]; intros acc.
  - discriminate.
  - cbn [for_each]. unfold field at 1.
    destruct (nth_error row 0) as [country|]; [|discriminate].
    cbn [bind]. destruct (in_region region country); [|apply IH].
    unfold field at 1.
    destruct (nth_error row 3) as [capacity|]; [|discriminate].
    cbn [bind]. unfold field at 1.
    destruct (nth_error row 10) as [start_date|]; [|discriminate].
    cbn [bind].
    destruct (confirm_deployment start_date capacity) as [[|]|e] eqn:Hc;
      cbn [bind]; try apply IH.
    apply confirm_deployment_raises in Hc. destruct Hc as [-> _].
    discriminate.
Qed.

Lemma select_region_invalid `{Library} (in_list : list csv_row) (region : str) :
  ~ In (upper region) region_names ->
  select_region in_list region
  = Raise (ValueError (region ++ py "is not a valid region")).
Proof.
  intros Hn. unfold select_region. rewrite keys_regions.
  destruct (member (upper region) region_names) eqn:Hm.
  - apply member_In in Hm. contradiction.
  - reflexivity.
Qed.

(** C6.  [select_region] raises its configuration error exactly when the
    upper-cased region is none of ASIA, AFRICA, EUROPE, SOUTH_AMERICA,
    NORTH_AMERICA, UNITED_STATES and ALL; it then raises whatever the rows
    are, none of which is looked at, and returns no list.  ["ATLANTIS"]
    raises.  For the region EUROPE, the country FRANCE passes the
    membership test. *)
Theorem select_region_spec `{Library} :
  (forall in_list region,
      (exists msg, select_region in_list region = Raise (ValueError msg)) <->
      ~ In (upper region)
           [py "ASIA"; py "AFRICA"; py "EUROPE"; py "SOUTH_AMERICA";
            py "NORTH_AMERICA"; py "UNITED_STATES"; py "ALL"])
  /\ (forall in_list region,
         ~ In (upper region) region_names ->
         select_region in_list region
         = Raise (ValueError (region ++ py "is not a valid region"))
         /\ select_region in_list region = select_region [] region)
  /\ (forall in_list,
         select_region in_list (py "ATLANTIS")
         = Raise (ValueError (py "ATLANTISis not a valid region")))
  /\ in_region (py "EUROPE") (py "FRANCE") = true.
Proof.
  split; [|split; [|split]].
  - intros in_list region. fold region_names. split.
    + intros (msg & E) Hin. revert E. unfold select_region.
      rewrite keys_regions.
      apply member_In in Hin. rewrite Hin. cbn [negb].
      apply select_loop_no_value_error.
    + intros Hn. eexists. apply select_region_invalid. exact Hn.
  - intros in_list region Hn.
    rewrite !select_region_invalid by exact Hn. split; reflexivity.
  - intros in_list. rewrite select_region_invalid.
    + vm_compute. reflexivity.
    + intros Hin. vm_compute in Hin.
      repeat (destruct Hin as [Hin | Hin]; [discriminate|]). exact Hin.
  - reflexivity.
Qed.

(** ** Lifetime *)

Lemma lstrip_blank (s : str) : lstrip s = [] <-> forallb is_space s = true.
Proof.
  induction s as [|c s IH]; [simpl; tauto|].
  simpl. destruct (is_space c); simpl.
  - exact IH.
  - split; discriminate.
Qed.

Lemma lstrip_suffix (s : str) : exists blanks, s = blanks ++ lstrip s
  /\ forallb is_space blanks = true.
Proof.
  induction s as [|c s (b & E & Hb)].
  - exists []. split; reflexivity.
  - simpl. destruct (is_space c) eqn:Hc.
    + exists (c :: b). simpl. rewrite Hc, Hb. split; [congruence | reflexivity].
    + exists []. split; reflexivity.
Qed.

(** A text is blank, empty or made of white space, exactly when [strip]
    leaves nothing of it. *)
Lemma strip_blank (s : str) : strip s = [] <-> forallb is_space s = true.
Proof.
  unfold strip, rstrip. split.
  - intros E.
    assert (E' : lstrip (rev (lstrip s)) = []).
    { destruct (lstrip (rev (lstrip s))) as [|x t] eqn:Hx; [reflexivity|].
      simpl in E. destruct (rev t); discriminate. }
    apply lstrip_blank in E'. rewrite forallb_forall in E'.
    destruct (lstrip_suffix s) as (b & Es & Hb).
    rewrite Es, forallb_app, Hb. simpl.
    apply forallb_forall. intros x Hx. apply E'. apply in_rev in Hx. exact Hx.
  - intros Hs. apply lstrip_blank in Hs. rewrite Hs. reflexivity.
Qed.

Lemma int_div_month (delta : Z) :
  int (inject_Z delta / n_days_month) = Z.quot (delta * 12) 365.
Proof. reflexivity. Qed.

Lemma get_lifetime_blank `{Library} (in_row : csv_row) (comm_date shutdown_date : str) :
  nth_error in_row 10 = Some comm_date ->
  nth_error in_row 11 = Some shutdown_date ->
  forallb is_space shutdown_date = true ->
  get_lifetime in_row = Ok 720.
Proof.
  intros H10 H11 Hb. unfold get_lifetime, field. rewrite H10, H11. cbn [bind].
  apply strip_blank in Hb. rewrite Hb. reflexivity.
Qed.

Lemma get_lifetime_dated `{Library} (in_row : csv_row) (comm_date shutdown_date : str)
  (commercial shutdown : datetime) (delta : Z) :
  nth_error in_row 10 = Some comm_date ->
  nth_error in_row 11 = Some shutdown_date ->
  forallb is_space shutdown_date = false ->
  date_parse comm_date = Some commercial ->
  date_parse shutdown_date = Some shutdown ->
  days_between shutdown commercial = Ok delta ->
  get_lifetime in_row = Ok (Z.quot (delta * 12) 365).
Proof.
  intros H10 H11 Hb Hc Hs Hd.
  unfold get_lifetime, field. rewrite H10, H11. cbn [bind].
  destruct (strip shutdown_date) as [|x t] eqn:Hstrip.
  - apply strip_blank in Hstrip. congruence.
  - unfold parse. rewrite Hs, Hc. cbn [bind]. rewrite Hd. cbn [bind].
    rewrite int_div_month. reflexivity.
Qed.

(** C4.  [get_lifetime] returns 720 whenever the shutdown field is blank,
    whatever the commercial-date field holds.  Otherwise it returns the
    whole days from the parsed commercial date to the parsed shutdown date,
    divided by 365/12 and cut towards zero, which is [delta * 12] over 365
    with the integer quotient that rounds towards zero.  For a library that
    reads ["1980-01-01"] and ["2010-01-01"] as those days, these two dates
    give 360. *)
Theorem get_lifetime_spec `{Library} :
  (forall in_row comm_date shutdown_date,
      nth_error in_row 10 = Some comm_date ->
      nth_error in_row 11 = Some shutdown_date ->
      forallb is_space shutdown_date = true ->
      get_lifetime in_row = Ok 720)
  /\ (forall in_row comm_date shutdown_date commercial shutdown delta,
         nth_error in_row 10 = Some comm_date ->
         nth_error in_row 11 = Some shutdown_date ->
         forallb is_space shutdown_date = false ->
         date_parse comm_date = Some commercial ->
         date_parse shutdown_date = Some shutdown ->
         days_between shutdown commercial = Ok delta ->
         get_lifetime in_row = Ok (int (inject_Z delta / (365 # 12)))
         /\ int (inject_Z delta / (365 # 12)) = Z.quot (delta * 12) 365)
  /\ (date_parse (py "1980-01-01") = Some (midnight 1980 1 1) ->
      date_parse (py "2010-01-01") = Some (midnight 2010 1 1) ->
      forall in_row,
        nth_error in_row 10 = Some (py "1980-01-01") ->
        nth_error in_row 11 = Some (py "2010-01-01") ->
        get_lifetime in_row = Ok 360).
Proof.
  split; [exact get_lifetime_blank|]. split.
  - intros in_row c s dc ds delta H10 H11 Hb Hc Hs Hd.
    split; [|reflexivity].
    apply (get_lifetime_dated in_row c s dc ds delta); assumption.
  - intros Hc Hs in_row H10 H11.
    apply (get_lifetime_dated in_row (py "1980-01-01") (py "2010-01-01")
             (midnight 1980 1 1) (midnight 2010 1 1) 10958 H10 H11);
      [reflexivity | exact Hc | exact Hs | reflexivity].
Qed.

Lemma get_lifetime_spec_witness :
  @get_lifetime reference (dated_row (py "not yet known") (py "  ")) = Ok 720
  /\ @get_lifetime reference (dated_row (py "1980-01-01") (py "2010-01-01"))
     = Ok 360
  /\ @get_lifetime reference (dated_row (py "1980-01-01") (py "1979-12-01"))
     = Ok (-1).
Proof.
  pose proof (@get_lifetime_spec reference) as (Hblank & Hdated & H360).
  split; [|split].
  - apply (Hblank _ (py "not yet known") (py "  ")); reflexivity.
  - apply H360; reflexivity.
  - refine (proj1 (Hdated _ (py "1980-01-01") (py "1979-12-01")
                          (midnight 1980 1 1) (midnight 1979 12 1) (-31)
                          _ _ _ _ _ _));
      reflexivity.
Defined.

(** ** Build offset *)

Lemma str_eqb_refl (a : str) : str_eqb a a = true.
Proof. apply str_eqb_eq. reflexivity. Qed.

Lemma update_idem {V} (k : str) (v : V) (d : list (str * V)) :
  update k v (update k v d) = update k v d.
Proof.
  induction d as [|[k' v'] d IH]; simpl.
  - rewrite str_eqb_refl. reflexivity.
  - destruct (str_eqb k k') eqn:E; simpl.
    + rewrite str_eqb_refl. reflexivity.
    + rewrite E, IH. reflexivity.
Qed.

Lemma lookup_update {V} (k k' : str) (v : V) (d : list (str * V)) :
  lookup k (update k' v d) = if str_eqb k k' then Some v else lookup k d.
Proof.
  induction d as [|[k0 v0] d IH]; simpl.
  - reflexivity.
  - destruct (str_eqb k' k0) eqn:E; simpl.
    + apply str_eqb_eq in E. subst k0.
      destruct (str_eqb k k'); reflexivity.
    + rewrite IH. destruct (str_eqb k k0) eqn:E0; [|reflexivity].
      apply str_eqb_eq in E0. subst k0.
      destruct (str_eqb k k') eqn:E1; [|reflexivity].
      apply str_eqb_eq in E1. subst k'. rewrite str_eqb_refl in E. discriminate.
Qed.

Lemma nth_error_nth_default {A} (l : list A) (n : nat) (x d : A) :
  nth_error l n = Some x -> nth n l d = x.
Proof. intros E. apply nth_error_nth. exact E. Qed.

Lemma nth_error_below {A} (l : list A) (n m : nat) (x d : A) :
  nth_error l n = Some x -> (m <= n)%nat -> nth_error l m = Some (nth m l d).
Proof.
  intros E Hm. apply nth_error_nth'.
  assert (n < length l)%nat by (apply nth_error_Some; congruence). lia.
Qed.

(** The inner loop over the paths writes the row's entry when a path
    yields the row's file name, and leaves the dictionary alone otherwise. *)
Lemma paths_loop (row : csv_row) (delta : Z) (path_list : list str)
  (d : list (str * (str * Z))) :
  (11 <= length row)%nat ->
  for_each path_list
    (fun buildtime_dict reactor =>
       name <- field row 1 ;;
       let name := replace (py " ") (py "_") name in
       country <- field row 0 ;;
       let file_name :=
         replace (py "/") [] (replace (dirname reactor) [] reactor) in
       if str_eqb (name ++ py ".xml") file_name
       then Ok (update name (country, delta) buildtime_dict)
       else Ok buildtime_dict)
    d
  = Ok (if listed path_list (row_name row)
        then update (row_name row) (row_country row, delta) d
        else d).
Proof.
  intros Hlen.
  assert (H1 : field row 1 = Ok (nth 1 row [])).
  { unfold field. rewrite (nth_error_nth' row []) by lia. reflexivity. }
  assert (H0 : field row 0 = Ok (nth 0 row [])).
  { unfold field. rewrite (nth_error_nth' row []) by lia. reflexivity. }
  match goal with |- for_each _ ?b _ = _ => set (body := b) end.
  revert d. induction path_list as [|reactor rest IH]; intros d.
  - reflexivity.
  - cbn [for_each]. unfold body at 1. rewrite H1, H0. cbn [bind]. cbv zeta.
    fold (row_name row). fold (row_country row). fold (file_name_of reactor).
    unfold listed. cbn [existsb]. fold (listed rest (row_name row)).
    destruct (str_eqb (row_name row ++ py ".xml") (file_name_of reactor)).
    + cbn [bind orb]. rewrite IH, update_idem.
      destruct (listed rest (row_name row)); reflexivity.
    + cbn [bind orb]. apply IH.
Qed.

Lemma rows_loop `{Library} (start_year : Z) (path_list : list str)
  (in_list : list csv_row) (d : list (str * (str * Z))) :
  forallb parseable in_list = true ->
  for_each in_list
    (fun buildtime_dict row =>
       comm_date <- field row 10 ;;
       comm_date <- parse comm_date ;;
       let start_date := (year comm_date, month comm_date, day comm_date) in
       let delta := (fst (fst start_date) - start_year) * 12
                    + snd (fst start_date)
                    + round (inject_Z (snd start_date) / n_days_month) in
       for_each path_list
         (fun buildtime_dict reactor =>
            name <- field row 1 ;;
            let name := replace (py " ") (py "_") name in
            country <- field row 0 ;;
            let file_name :=
              replace (py "/") [] (replace (dirname reactor) [] reactor) in
            if str_eqb (name ++ py ".xml") file_name
            then Ok (update name (country, delta) buildtime_dict)
            else Ok buildtime_dict)
         buildtime_dict)
    d
  = Ok (schedule start_year path_list in_list d).
Proof.
  revert d. induction in_list as [|row rest IH]; intros d Hp.
  - reflexivity.
  - cbn [forallb] in Hp. apply andb_true_iff in Hp. destruct Hp as [Hrow Hrest].
    cbn [for_each]. unfold schedule. cbn [fold_left].
    fold (schedule start_year path_list rest).
    unfold parseable in Hrow. unfold row_offset.
    destruct (nth_error row 10) as [comm_date|] eqn:H10; [|discriminate].
    rewrite (nth_error_nth_default row 10 comm_date [] H10).
    unfold field at 1. rewrite H10. cbn [bind]. unfold parse.
    destruct (date_parse comm_date) as [dt|]; [|discriminate].
    cbn [bind]. cbv zeta. cbn [fst snd].
    assert (Hlen : (11 <= length row)%nat).
    { assert (10 < length row)%nat by (apply nth_error_Some; congruence). lia. }
    match goal with
    | |- bind ?X _ = _ =>
        assert (E : X = Ok (if listed path_list (row_name row)
                            then update (row_name row)
                                   (row_country row, build_offset dt start_year) d
                            else d))
          by (apply paths_loop; exact Hlen);
        rewrite E
    end.
    cbn [bind]. apply IH. exact Hrest.
Qed.

Lemma get_buildtime_schedule `{Library} (in_list : list csv_row) (start_year : Z)
  (path_list : list str) :
  forallb parseable in_list = true ->
  get_buildtime in_list start_year path_list
  = Ok (schedule start_year path_list in_list []).
Proof. intros Hp. unfold get_buildtime. apply rows_loop. exact Hp. Qed.

Lemma schedule_cons `{Library} (start_year : Z) (path_list : list str)
  (row : csv_row) (rest : list csv_row) (d : list (str * (str * Z))) :
  schedule start_year path_list (row :: rest) d
  = schedule start_year path_list rest
      (if listed path_list (row_name row)
       then update (row_name row) (row_country row, row_offset start_year row) d
       else d).
Proof. reflexivity. Qed.

(** Every entry of the dictionary was written for a row of the list. *)
Lemma schedule_origin `{Library} (start_year : Z) (path_list : list str)
  (in_list : list csv_row) (d : list (str * (str * Z))) (name : str) (v : str * Z) :
  lookup name (schedule start_year path_list in_list d) = Some v ->
  lookup name d = Some v
  \/ exists row, In row in_list /\ name = row_name row
                 /\ v = (row_country row, row_offset start_year row)
                 /\ listed path_list name = true.
Proof.
  revert d. induction in_list as [|row rest IH]; intros d Hl.
  - left. exact Hl.
  - rewrite schedule_cons in Hl. apply IH in Hl.
    destruct Hl as [Hl | (r & Hin & Hn & Hv & Hp)].
    + destruct (listed path_list (row_name row)) eqn:Hlisted.
      * rewrite lookup_update in Hl.
        destruct (str_eqb name (row_name row)) eqn:E.
        -- apply str_eqb_eq in E. right. exists row.
           split; [left; reflexivity|]. split; [exact E|].
           split; [congruence|]. rewrite E. exact Hlisted.
        -- left. exact Hl.
      * left. exact Hl.
    + right. exists r. split; [right; exact Hin|]. auto.
Qed.

Lemma schedule_keeps `{Library} (start_year : Z) (path_list : list str)
  (in_list : list csv_row) (d : list (str * (str * Z))) (name : str) :
  (forall r, In r in_list -> row_name r <> name) ->
  lookup name (schedule start_year path_list in_list d) = lookup name d.
Proof.
  revert d. induction in_list as [|row rest IH]; intros d Hn.
  - reflexivity.
  - rewrite schedule_cons, IH by (intros r Hr; apply Hn; right; exact Hr).
    destruct (listed path_list (row_name row)); [|reflexivity].
    rewrite lookup_update.
    destruct (str_eqb name (row_name row)) eqn:E; [|reflexivity].
    apply str_eqb_eq in E. exfalso. apply (Hn row); [left; reflexivity|].
    symmetry. exact E.
Qed.

(** The last row of a name decides the name's entry. *)
Lemma schedule_last `{Library} (start_year : Z) (path_list : list str)
  (pre post : list csv_row) (row : csv_row) (d : list (str * (str * Z))) :
  (forall r, In r post -> row_name r <> row_name row) ->
  listed path_list (row_name row) = true ->
  lookup (row_name row) (schedule start_year path_list (pre ++ row :: post) d)
  = Some (row_country row, row_offset start_year row).
Proof.
  intros Hpost Hlisted. unfold schedule. rewrite fold_left_app.
  cbn [fold_left]. rewrite Hlisted.
  fold (schedule start_year path_list pre d).
  match goal with
  | |- lookup _ (fold_left ?f post ?d0) = _ =>
      change (fold_left f post d0) with (schedule start_year path_list post d0)
  end.
  rewrite schedule_keeps by exact Hpost.
  rewrite lookup_update, str_eqb_refl. reflexivity.
Qed.

Lemma row_offset_parsed `{Library} (start_year : Z) (row : csv_row)
  (comm_date : str) (d : datetime) :
  nth_error row 10 = Some comm_date -> date_parse comm_date = Some d ->
  row_offset start_year row = build_offset d start_year.
Proof.
  intros H10 Hd. unfold row_offset.
  rewrite (nth_error_nth_default row 10 comm_date [] H10), Hd. reflexivity.
Qed.

Lemma parseable_date `{Library} (row : csv_row) :
  parseable row = true ->
  exists comm_date d, nth_error row 10 = Some comm_date
                      /\ date_parse comm_date = Some d.
Proof.
  unfold parseable. destruct (nth_error row 10) as [c|]; [|discriminate].
  destruct (date_parse c) as [d|] eqn:Hd; [|discriminate].
  intros _. exists c, d. auto.
Qed.

(** The day of the month adds nothing up to the 15th and one month after. *)
Lemma round_day (k : Z) :
  1 <= k <= 31 -> round (inject_Z k / (365 # 12)) = if k <=? 15 then 0 else 1.
Proof.
  intros Hk.
  assert (E : k = Z.of_nat (Z.to_nat k)) by lia.
  assert (Hn : (Z.to_nat k <= 31)%nat) by lia.
  revert E Hn. generalize (Z.to_nat k). intros n E Hn. subst k.
  do 32 (destruct n as [|n]; [try lia; reflexivity|]). lia.
Qed.

(** C5.  For rows whose commercial dates all parse, [get_buildtime]
    returns a dictionary; each of its entries was written for a row of the
    list and holds the row's country and the offset
    [(year - start_year) * 12 + month + round (day / (365/12))] of the
    row's parsed commercial date, and the last row of a name whose file is
    listed has exactly that entry.  The month enters as it is, without a
    [month - 1]: the rounded day term is 0 up to the 15th and 1 after. *)
Theorem get_buildtime_spec `{Library} (in_list : list csv_row) (start_year : Z)
  (path_list : list str) :
  forallb parseable in_list = true ->
  exists buildtime_dict,
    get_buildtime in_list start_year path_list = Ok buildtime_dict
    /\ (forall name country delta,
           lookup name buildtime_dict = Some (country, delta) ->
           exists row comm_date d,
             In row in_list
             /\ nth_error row 10 = Some comm_date
             /\ date_parse comm_date = Some d
             /\ name = row_name row
             /\ country = row_country row
             /\ delta = (year d - start_year) * 12 + month d
                        + round (inject_Z (day d) / (365 # 12)))
    /\ (forall pre row post comm_date d,
           in_list = pre ++ row :: post ->
           (forall r, In r post -> row_name r <> row_name row) ->
           listed path_list (row_name row) = true ->
           nth_error row 10 = Some comm_date ->
           date_parse comm_date = Some d ->
           lookup (row_name row) buildtime_dict
           = Some (row_country row,
                   (year d - start_year) * 12 + month d
                   + round (inject_Z (day d) / (365 # 12))))
    /\ (forall d, 1 <= day d <= 31 ->
                  build_offset d start_year
                  = (year d - start_year) * 12 + month d
                    + (if day d <=? 15 then 0 else 1)).
Proof.
  intros Hp. exists (schedule start_year path_list in_list []).
  split; [apply get_buildtime_schedule; exact Hp|].
  split; [|split].
  - intros name country delta Hl.
    apply schedule_origin in Hl.
    destruct Hl as [Hl | (row & Hin & Hn & Hv & _)]; [discriminate|].
    rewrite forallb_forall in Hp.
    destruct (parseable_date row (Hp row Hin)) as (c & d & H10 & Hd).
    exists row, c, d.
    rewrite (row_offset_parsed start_year row c d H10 Hd) in Hv.
    inversion Hv. subst. repeat split; auto.
  - intros pre row post c d Ein Hpost Hlisted H10 Hd. subst in_list.
    rewrite (schedule_last start_year path_list pre post row [] Hpost Hlisted).
    rewrite (row_offset_parsed start_year row c d H10 Hd). reflexivity.
  - intros d Hd. unfold build_offset. rewrite round_day by exact Hd.
    reflexivity.
Qed.

Lemma get_buildtime_spec_witness :
  exists buildtime_dict,
    @get_buildtime reference [dated_row (py "1985-01-10") (py "")] 1985
      [py "cyclus/input/asia/reactors/OHI-1.xml"] = Ok buildtime_dict
    /\ lookup (py "OHI-1") buildtime_dict = Some (py "JAPAN", 1).
Proof.
  destruct (@get_buildtime_spec reference
              [dated_row (py "1985-01-10") (py "")] 1985
              [py "cyclus/input/asia/reactors/OHI-1.xml"] eq_refl)
    as (buildtime_dict & Hd & _ & Hlast & _).
  exists buildtime_dict. split; [exact Hd|].
  apply (Hlast [] (dated_row (py "1985-01-10") (py "")) []
               (py "1985-01-10") (midnight 1985 1 10)).
  - reflexivity.
  - intros r [].
  - reflexivity.
  - reflexivity.
  - reflexivity.
Defined.

(** C10 fails on the code.  The file name of a path is taken by deleting
    every occurrence of the path's directory and every slash, which is the
    final component only while the directory's name does not occur again.
    With the one file [RE/CORE.xml], the reactor CO gets an entry although
    no path ends in [CO.xml]. *)
Theorem get_buildtime_directory_in_file_name :
  map basename [py "RE/CORE.xml"] = [py "CORE.xml"]
  /\ map file_name_of [py "RE/CORE.xml"] = [py "CO.xml"]
  /\ @get_buildtime reference
       [reactor_row (py "FRANCE") (py "CO") (py "1985-06-20")] 1960
       [py "RE/CORE.xml"]
     = Ok [(py "CO", (py "FRANCE", 307))].
Proof. repeat split. Qed.

(** *** Paths whose directory does not occur again *)

Lemma starts_with_app (p s : str) : starts_with p (p ++ s) = true.
Proof.
  induction p as [|c p IH]; [reflexivity|].
  cbn. rewrite N.eqb_refl. exact IH.
Qed.

Lemma find_lower (sub s : str) : -1 <= find sub s.
Proof.
  induction s as [|c s IH].
  - cbn. destruct (starts_with sub []); lia.
  - rewrite find_cons. destruct (starts_with sub (c :: s)); [lia|].
    destruct (find sub s =? -1); lia.
Qed.

Lemma find_none_here (sub s : str) : find sub s = -1 -> starts_with sub s = false.
Proof.
  destruct s as [|c s]; cbn [find]; destruct (starts_with sub _);
    try discriminate; reflexivity.
Qed.

Lemma find_none_tail (sub s : str) (c : char) :
  find sub (c :: s) = -1 -> find sub s = -1.
Proof.
  rewrite find_cons. destruct (starts_with sub (c :: s)); [discriminate|].
  destruct (Z.eqb_spec (find sub s) (-1)) as [E | E]; [intros _; exact E|].
  pose proof (find_lower sub s). lia.
Qed.

(** Where [old] does not occur, [replace] changes nothing. *)
Lemma replace_from_none (o : char) (old new s : str) :
  find (o :: old) s = -1 -> replace_from (o :: old) new 0 s = s.
Proof.
  induction s as [|c s IH]; [reflexivity|].
  intros Hf. cbn [replace_from].
  rewrite (find_none_here _ _ Hf). f_equal.
  apply IH. apply (find_none_tail _ _ c). exact Hf.
Qed.

Lemma replace_from_skip (old new a s : str) :
  replace_from old new (length a) (a ++ s) = replace_from old new 0 s.
Proof.
  induction a as [|c a IH]; [reflexivity|]. cbn. exact IH.
Qed.

(** A leading occurrence of [old] is deleted, and the rest is kept when
    [old] does not occur in it. *)
Lemma replace_prefix (old rest : str) :
  old <> [] -> find old rest = -1 -> replace old [] (old ++ rest) = rest.
Proof.
  intros Hne Hf. destruct old as [|o old]; [congruence|].
  unfold replace.
  change ((o :: old) ++ rest) with (o :: (old ++ rest)).
  cbn [replace_from].
  change (starts_with (o :: old) (o :: old ++ rest))
    with (starts_with (o :: old) ((o :: old) ++ rest)).
  rewrite starts_with_app.
  replace (length (o :: old) - 1)%nat with (length old) by (cbn [length]; lia).
  rewrite replace_from_skip. cbn [app].
  apply replace_from_none. exact Hf.
Qed.

Lemma find_char_none (c : char) (s : str) :
  ~ In c s -> find [c] s = -1.
Proof.
  induction s as [|x s IH]; intros Hn; [reflexivity|].
  rewrite find_cons. cbn [starts_with].
  destruct (N.eqb_spec c x) as [-> | _].
  - exfalso. apply Hn. left. reflexivity.
  - cbn [andb]. rewrite IH by (intros H; apply Hn; right; exact H).
    reflexivity.
Qed.

Lemma rfind_char_none (c : char) (s : str) :
  ~ In c s -> rfind [c] s = -1.
Proof.
  induction s as [|x s IH]; intros Hn; [reflexivity|].
  cbn [rfind]. rewrite IH by (intros H; apply Hn; right; exact H).
  cbn [Z.eqb starts_with].
  destruct (N.eqb_spec c x) as [-> | _]; [|reflexivity].
  exfalso. apply Hn. left. reflexivity.
Qed.

Lemma rfind_last_slash (dir file : str) :
  ~ In 47%N file -> rfind [47%N] (dir ++ 47%N :: file) = len dir.
Proof.
  intros Hn. induction dir as [|x dir IH].
  - cbn [app rfind]. rewrite rfind_char_none by exact Hn. reflexivity.
  - cbn [app rfind]. rewrite IH.
    destruct (Z.eqb_spec (len dir) (-1)) as [E | _].
    + pose proof (len_nonneg dir). lia.
    + unfold len. cbn [length]. lia.
Qed.

Lemma drop_leading_keeps (c : char) (s : str) :
  hd_error s <> Some c -> drop_leading c s = s.
Proof.
  destruct s as [|x s]; [reflexivity|]. cbn.
  destruct (N.eqb_spec x c) as [-> | _]; [congruence | reflexivity].
Qed.

(** The directory and the final component of [dir/file]. *)
Lemma dirname_plain (dir file : str) :
  hd_error (rev dir) <> None -> hd_error (rev dir) <> Some 47%N ->
  ~ In 47%N file ->
  dirname (dir ++ 47%N :: file) = dir
  /\ basename (dir ++ 47%N :: file) = file.
Proof.
  intros Hne Hlast Hn. unfold dirname, basename. cbv zeta.
  change (py "/") with (@cons char 47%N (@nil char)).
  rewrite rfind_last_slash by exact Hn.
  assert (Hlen : len (dir ++ 47%N :: file) = len dir + 1 + len file).
  { unfold len. rewrite length_app. cbn [length]. lia. }
  pose proof (len_nonneg dir). pose proof (len_nonneg file).
  rewrite slice_to_firstn, slice_from_skipn by lia.
  replace (Z.to_nat (len dir + 1)) with (length (dir ++ [47%N]))
    by (rewrite length_app; unfold len; cbn [length]; lia).
  change (dir ++ 47%N :: file) with (dir ++ [47%N] ++ file).
  rewrite app_assoc.
  rewrite firstn_app, firstn_all, Nat.sub_diag.
  rewrite skipn_app, skipn_all, Nat.sub_diag.
  cbn [firstn skipn app]. rewrite app_nil_r. split; [|reflexivity].
  assert (Hhead : str_eqb (dir ++ [47%N]) [] = false).
  { destruct (str_eqb (dir ++ [47%N]) []) eqn:E; [|reflexivity].
    apply str_eqb_eq in E. destruct dir; discriminate. }
  assert (Hall : forallb (N.eqb 47%N) (dir ++ [47%N]) = false).
  { destruct (forallb (N.eqb 47%N) (dir ++ [47%N])) eqn:E; [|reflexivity].
    exfalso. rewrite forallb_forall in E.
    destruct (rev dir) as [|x t] eqn:Er; [apply Hne; reflexivity|].
    apply Hlast. cbn. f_equal. symmetry. apply N.eqb_eq. apply E.
    apply in_or_app. left. apply in_rev. rewrite Er. left. reflexivity. }
  match goal with
  | |- (if negb ?a && negb ?b then _ else _) = _ =>
      replace a with false by (symmetry; exact Hhead);
      replace b with false by (symmetry; exact Hall)
  end.
  cbn [negb andb].
  rewrite rev_app_distr. cbn [rev app drop_leading]. rewrite N.eqb_refl.
  rewrite drop_leading_keeps by exact Hlast. apply rev_involutive.
Qed.

(** For a path [dir/file] whose directory does not occur in [/file], the
    file name [get_buildtime] computes is the final component. *)
Lemma file_name_of_plain (dir file : str) :
  hd_error (rev dir) <> None -> hd_error (rev dir) <> Some 47%N ->
  ~ In 47%N file ->
  find dir (47%N :: file) = -1 ->
  file_name_of (dir ++ 47%N :: file) = file
  /\ basename (dir ++ 47%N :: file) = file.
Proof.
  intros Hne Hlast Hn Hocc.
  destruct (dirname_plain dir file Hne Hlast Hn) as [Hd Hb].
  split; [|exact Hb]. unfold file_name_of. rewrite Hd.
  rewrite replace_prefix;
    [| intros E; subst dir; apply Hne; reflexivity | exact Hocc].
  change (py "/") with (@cons char 47%N (@nil char)).
  unfold replace. cbn [replace_from starts_with]. rewrite N.eqb_refl.
  cbn [andb length Nat.sub app].
  apply replace_from_none. apply find_char_none. exact Hn.
Qed.

(** Among such paths, a name is listed exactly when it is, with [.xml],
    the final component of a path. *)
Lemma listed_plain (path_list : list str) (name : str) :
  Forall plain_path path_list ->
  listed path_list name = true <->
  exists p, In p path_list /\ basename p = name ++ py ".xml".
Proof.
  intros Hplain. rewrite Forall_forall in Hplain.
  unfold listed. rewrite existsb_exists. split.
  - intros (p & Hin & E). apply str_eqb_eq in E. exists p.
    split; [exact Hin|].
    destruct (Hplain p Hin) as (dir & file & -> & Hne & Hlast & Hn & Hocc).
    destruct (file_name_of_plain dir file Hne Hlast Hn Hocc) as [Ef Eb].
    exact (eq_trans Eb (eq_sym (eq_trans E Ef))).
  - intros (p & Hin & E). exists p. split; [exact Hin|].
    apply str_eqb_eq.
    destruct (Hplain p Hin) as (dir & file & -> & Hne & Hlast & Hn & Hocc).
    destruct (file_name_of_plain dir file Hne Hlast Hn Hocc) as [Ef Eb].
    exact (eq_trans (eq_sym E) (eq_trans Eb (eq_sym Ef))).
Qed.

(** With such paths, a reactor has an entry only if its file is listed:
    what C10 says holds away from the paths of the failing input above. *)
Lemma get_buildtime_plain `{Library} (in_list : list csv_row) (start_year : Z)
  (path_list : list str) (name : str) (v : str * Z) :
  forallb parseable in_list = true ->
  Forall plain_path path_list ->
  exists buildtime_dict,
    get_buildtime in_list start_year path_list = Ok buildtime_dict
    /\ (lookup name buildtime_dict = Some v ->
        exists p, In p path_list /\ basename p = name ++ py ".xml").
Proof.
  intros Hp Hplain. exists (schedule start_year path_list in_list []).
  split; [apply get_buildtime_schedule; exact Hp|].
  intros Hl. apply schedule_origin in Hl.
  destruct Hl as [Hl | (row & _ & _ & _ & Hlisted)]; [discriminate|].
  apply listed_plain; assumption.
Qed.

(** ** The coordinate merge *)

Lemma put_app (a b : row) (x v : value) :
  put (length a) v (a ++ x :: b) = a ++ v :: b.
Proof.
  unfold put. rewrite firstn_app, firstn_all, Nat.sub_diag.
  rewrite skipn_app, skipn_all2 by lia.
  replace (S (length a) - length a)%nat with 1%nat by lia.
  cbn [firstn skipn app]. rewrite app_nil_r. reflexivity.
Qed.

(** A row of at least fifteen cells, cut around cells 13 and 14. *)
Lemma row_cut (r : row) :
  (15 <= length r)%nat ->
  exists a x y b, r = a ++ x :: y :: b /\ length a = 13%nat.
Proof.
  intros Hl. exists (firstn 13 r).
  destruct (skipn 13 r) as [|x [|y b]] eqn:E.
  - apply (f_equal (@length value)) in E. rewrite length_skipn in E.
    simpl in E. lia.
  - apply (f_equal (@length value)) in E. rewrite length_skipn in E.
    simpl in E. lia.
  - exists x, y, b. split.
    + rewrite <- E. symmetry. apply firstn_skipn.
    + rewrite length_firstn. lia.
Qed.

Lemma put_coords_cut (web : geo) (a b : row) (x y : value) :
  length a = 13%nat ->
  put_coords web (a ++ x :: y :: b) = a ++ g_lat web :: g_long web :: b.
Proof.
  intros Ha. unfold put_coords.
  replace (put 13 (g_lat web) (a ++ x :: y :: b))
    with ((a ++ [g_lat web]) ++ y :: b).
  - replace 14%nat with (length (a ++ [g_lat web]))
      by (rewrite length_app; simpl; lia).
    rewrite put_app, <- app_assoc. reflexivity.
  - rewrite <- Ha, put_app, <- app_assoc. reflexivity.
Qed.

Lemma assign_ok (web : geo) (prs : row) :
  (15 <= length prs)%nat -> assign web prs = Ok (put_coords web prs).
Proof.
  intros Hl. unfold assign, setitem.
  destruct (Nat.ltb_spec 13 (length prs)) as [_ | H]; [|lia].
  cbn [bind]. fold (put 13 (g_lat web) prs).
  assert (Hl' : length (put 13 (g_lat web) prs) = length prs).
  { destruct (row_cut prs Hl) as (a & x & y & b & -> & Ha).
    rewrite <- Ha, put_app, !length_app. reflexivity. }
  rewrite Hl'.
  destruct (Nat.ltb_spec 14 (length prs)) as [_ | H]; [|lia].
  reflexivity.
Qed.

Lemma length_put_coords (web : geo) (prs : row) :
  (15 <= length prs)%nat -> length (put_coords web prs) = length prs.
Proof.
  intros Hl. destruct (row_cut prs Hl) as (a & x & y & b & -> & Ha).
  rewrite put_coords_cut by exact Ha. rewrite !length_app. reflexivity.
Qed.

(** A later assignment replaces an earlier one. *)
Lemma put_coords_twice (web web' : geo) (prs : row) :
  (15 <= length prs)%nat ->
  put_coords web' (put_coords web prs) = put_coords web' prs.
Proof.
  intros Hl. destruct (row_cut prs Hl) as (a & x & y & b & -> & Ha).
  rewrite !put_coords_cut by exact Ha. reflexivity.
Qed.

Lemma put_coords_cells (web : geo) (prs : row) :
  (15 <= length prs)%nat ->
  nth_error (put_coords web prs) 13 = Some (g_lat web)
  /\ nth_error (put_coords web prs) 14 = Some (g_long web)
  /\ forall k, k <> 13%nat -> k <> 14%nat ->
               nth_error (put_coords web prs) k = nth_error prs k.
Proof.
  intros Hl. destruct (row_cut prs Hl) as (a & x & y & b & -> & Ha).
  rewrite put_coords_cut by exact Ha. split; [|split].
  - rewrite nth_error_app2 by lia. rewrite Ha. reflexivity.
  - rewrite nth_error_app2 by lia. rewrite Ha. reflexivity.
  - intros k H13 H14. destruct (Nat.ltb_spec k 13) as [Hk | Hk].
    + rewrite !nth_error_app1 by lia. reflexivity.
    + rewrite !nth_error_app2 by lia. rewrite Ha.
      destruct (k - 13)%nat as [|[|n]] eqn:E; [lia | lia | reflexivity].
Qed.

(** The loop over the edge cases assigns once an entry fits, and any
    further fitting entry assigns the same cells again. *)
Lemma edge_loop `{Library} (web : geo) (webscrape_name pris_name : str)
  (others : list (str * str)) (prs : row) :
  (15 <= length prs)%nat ->
  for_each others
    (fun prs other =>
       let edge_case_key := lower (fst other) in
       let edge_case_value := lower (snd other) in
       if 80 <? fuzz_ratio pris_name edge_case_key
       then if 75 <? fuzz_ratio webscrape_name edge_case_value
            then assign web prs
            else Ok prs
       else Ok prs)
    prs
  = Ok (if existsb (edge_hit webscrape_name pris_name) others
        then put_coords web prs else prs).
Proof.
  revert prs. induction others as [|other rest IH]; intros prs Hl.
  - reflexivity.
  - cbn [for_each existsb]. cbv zeta. unfold edge_hit at 1.
    destruct (80 <? fuzz_ratio pris_name (lower (fst other)));
      [destruct (75 <? fuzz_ratio webscrape_name (lower (snd other)))|];
      cbn [andb orb].
    + rewrite assign_ok by exact Hl. cbn [bind].
      rewrite IH by (rewrite length_put_coords; exact Hl).
      rewrite put_coords_twice by exact Hl.
      destruct (existsb _ rest); reflexivity.
    + cbn [bind]. apply IH. exact Hl.
    + cbn [bind]. apply IH. exact Hl.
Qed.

Lemma merge_row_ok `{Library} (web : geo) (prs : row) (wn pn : str) :
  g_name web = VStr wn ->
  nth_error prs 1 = Some (VStr pn) ->
  (15 <= length prs)%nat ->
  merge_row web prs
  = Ok (if match_rule (sanitize_webscrape_name wn) (pris_name_of pn)
        then put_coords web prs else prs).
Proof.
  intros Hw Hp Hl. unfold merge_row, cell. rewrite Hw, Hp. cbn [text bind].
  rewrite sanitize_pris_name_ok. cbn [bind]. cbv zeta. unfold match_rule.
  destruct (78 <? fuzz_ratio (sanitize_webscrape_name wn) (pris_name_of pn)).
  - cbn [orb]. apply assign_ok. exact Hl.
  - cbn [orb]. apply edge_loop. exact Hl.
Qed.

Lemma edge_hit_iff `{Library} (webscrape_name pris_name : str) :
  existsb (edge_hit webscrape_name pris_name) get_edge_cases = true <->
  exists key value,
    In (key, value) get_edge_cases
    /\ 80 < fuzz_ratio pris_name (lower key)
    /\ 75 < fuzz_ratio webscrape_name (lower value).
Proof.
  rewrite existsb_exists. split.
  - intros ([key value] & Hin & Hh). unfold edge_hit in Hh.
    apply andb_true_iff in Hh. destruct Hh as [H80 H75].
    apply Z.ltb_lt in H80, H75. exists key, value. auto.
  - intros (key & value & Hin & H80 & H75). exists (key, value).
    split; [exact Hin|]. unfold edge_hit. cbn [fst snd].
    apply andb_true_iff. split; apply Z.ltb_lt; assumption.
Qed.

(** C2.  For a geo point and a row of the imported frame, with [wn] and
    [pn] their names: the body of the merge assigns the point's latitude
    and longitude to cells 13 and 14 of the row exactly when the ratio of
    the normalised geo name and the normalised reactor name exceeds 78, or
    some entry of the edge-case table has a ratio above 80 between the
    normalised reactor name and its lower-cased key and a ratio above 75
    between the normalised geo name and its lower-cased value.  Otherwise
    the row is left as it is. *)
Theorem merge_row_rule `{Library} (web : geo) (prs : row) (wn pn : str) :
  g_name web = VStr wn ->
  nth_error prs 1 = Some (VStr pn) ->
  (15 <= length prs)%nat ->
  exists webscrape_name pris_name,
    webscrape_name = sanitize_webscrape_name wn
    /\ sanitize_pris_name pn = Ok pris_name
    /\ let rule :=
         78 < fuzz_ratio webscrape_name pris_name
         \/ exists key value,
              In (key, value) get_edge_cases
              /\ 80 < fuzz_ratio pris_name (lower key)
              /\ 75 < fuzz_ratio webscrape_name (lower value) in
       (rule ->
        exists prs',
          merge_row web prs = Ok prs'
          /\ nth_error prs' 13 = Some (g_lat web)
          /\ nth_error prs' 14 = Some (g_long web)
          /\ forall k, k <> 13%nat -> k <> 14%nat ->
                       nth_error prs' k = nth_error prs k)
       /\ (~ rule -> merge_row web prs = Ok prs).
Proof.
  intros Hw Hp Hl.
  exists (sanitize_webscrape_name wn), (pris_name_of pn).
  split; [reflexivity|]. split; [apply sanitize_pris_name_ok|].
  cbv zeta. rewrite (merge_row_ok web prs wn pn Hw Hp Hl).
  unfold match_rule. split.
  - intros Hrule.
    assert (E : (78 <? fuzz_ratio (sanitize_webscrape_name wn) (pris_name_of pn))
                || existsb (edge_hit (sanitize_webscrape_name wn) (pris_name_of pn))
                     get_edge_cases = true).
    { apply orb_true_iff. destruct Hrule as [H78 | He].
      - left. apply Z.ltb_lt. exact H78.
      - right. apply edge_hit_iff. exact He. }
    rewrite E. exists (put_coords web prs). split; [reflexivity|].
    apply put_coords_cells. exact Hl.
  - intros Hno.
    destruct ((78 <? fuzz_ratio (sanitize_webscrape_name wn) (pris_name_of pn))
              || existsb (edge_hit (sanitize_webscrape_name wn) (pris_name_of pn))
                   get_edge_cases) eqn:E; [|reflexivity].
    exfalso. apply Hno. apply orb_true_iff in E. destruct E as [E | E].
    + left. apply Z.ltb_lt. exact E.
    + right. apply edge_hit_iff. exact E.
Qed.

(** *** The frame after [import_pris] *)

Lemma insert_two (r : row) :
  (13 <= length r)%nat ->
  map fill_blank
    ((fun r => firstn 14 r ++ VNull :: skipn 14 r)
       ((fun r => firstn 13 r ++ VNull :: skipn 13 r) r))
  = prepare r.
Proof.
  intros Hl. cbv beta. unfold prepare.
  assert (Ha : length (firstn 13 r) = 13%nat) by (rewrite length_firstn; lia).
  set (a := firstn 13 r) in *. set (b := skipn 13 r).
  change (a ++ VNull :: b) with (a ++ [VNull] ++ b). rewrite app_assoc.
  assert (Ha' : length (a ++ [VNull]) = 14%nat)
    by (rewrite length_app; simpl; lia).
  rewrite <- Ha'.
  rewrite firstn_app, firstn_all, Nat.sub_diag.
  rewrite skipn_app, skipn_all, Nat.sub_diag.
  cbn [firstn skipn app]. rewrite app_nil_r, <- app_assoc.
  rewrite !map_app. reflexivity.
Qed.

Lemma import_pris_ok (pris : frame) :
  (13 <= ncols pris)%nat ->
  Forall (fun r => length r = ncols pris) (rows pris) ->
  import_pris pris
  = Ok {| ncols := S (S (ncols pris)); rows := map prepare (rows pris) |}.
Proof.
  intros Hn Hw. unfold import_pris, insert_column.
  destruct (Nat.leb_spec 13 (ncols pris)) as [_ | H]; [|lia].
  cbn [bind ncols rows].
  destruct (Nat.leb_spec 14 (S (ncols pris))) as [_ | H]; [|lia].
  cbn [bind ncols rows]. f_equal. f_equal.
  rewrite !map_map. apply map_ext_in. intros r Hr.
  rewrite Forall_forall in Hw. apply insert_two. rewrite (Hw r Hr). exact Hn.
Qed.

Lemma prepare_cells (r : row) :
  (13 <= length r)%nat ->
  length (prepare r) = S (S (length r))
  /\ nth_error (prepare r) 13 = Some (VStr [])
  /\ nth_error (prepare r) 14 = Some (VStr [])
  /\ nth_error (prepare r) 1 = option_map fill_blank (nth_error r 1).
Proof.
  intros Hl. unfold prepare.
  assert (Ha : length (map fill_blank (firstn 13 r)) = 13%nat)
    by (rewrite length_map, length_firstn; lia).
  split; [|split; [|split]].
  - rewrite length_app, Ha. cbn [length].
    rewrite length_map, length_skipn. lia.
  - rewrite nth_error_app2 by lia. rewrite Ha. reflexivity.
  - rewrite nth_error_app2 by lia. rewrite Ha. reflexivity.
  - rewrite nth_error_app1 by lia.
    rewrite nth_error_map, nth_error_firstn. reflexivity.
Qed.

Lemma prepare_ready (r : row) :
  (13 <= length r)%nat -> has_name r = true ->
  ready (prepare r) /\ name_of (prepare r) = name_of r.
Proof.
  intros Hl Hn. destruct (prepare_cells r Hl) as (Hlen & _ & _ & H1).
  unfold ready, name_of, has_name in *. rewrite !H1, Hlen.
  destruct (nth_error r 1) as [[s| |]|]; try discriminate; cbn;
    (split; [split; [lia | reflexivity] | reflexivity]).
Qed.

Lemma put_coords_ready (web : geo) (r : row) :
  ready r -> ready (put_coords web r) /\ name_of (put_coords web r) = name_of r.
Proof.
  intros [Hl Hn]. destruct (put_coords_cells web r Hl) as (_ & _ & Hk).
  assert (E : nth_error (put_coords web r) 1 = nth_error r 1)
    by (apply Hk; lia).
  unfold ready, name_of. rewrite E, length_put_coords by exact Hl.
  fold (name_of r). auto.
Qed.

(** *** The two loops *)

Lemma merge_row_step `{Library} (web : geo) (r : row) :
  named web = true -> ready r -> merge_row web r = Ok (step web r).
Proof.
  intros Hw [Hl Hn]. unfold named in Hw.
  destruct (g_name web) as [wn| |] eqn:Ew; try discriminate.
  rewrite (merge_row_ok web r wn (name_of r) Ew Hn Hl).
  unfold step, row_matches, geo_name. rewrite Ew. reflexivity.
Qed.

Lemma step_ready `{Library} (web : geo) (r : row) :
  ready r -> ready (step web r) /\ name_of (step web r) = name_of r.
Proof.
  intros Hr. unfold step. destruct (row_matches web r); [|auto].
  apply put_coords_ready. exact Hr.
Qed.

(** The loop over the rows writes each row back in its own place, so it
    maps the body over the frame. *)
Lemma iterrows_from `{Library} (web : geo) (f : row -> row) (todo visited : list row) :
  (forall r, In r todo -> merge_row web r = Ok (f r)) ->
  for_each (seq (length visited) (length todo)) (iterrows_step web)
           (visited ++ todo)
  = Ok (visited ++ map f todo).
Proof.
  revert visited. induction todo as [|r todo IH]; intros visited Hf.
  - reflexivity.
  - cbn [length seq for_each]. unfold iterrows_step at 1.
    rewrite nth_error_app2, Nat.sub_diag by lia. cbn [nth_error].
    rewrite (Hf r) by (left; reflexivity). cbn [bind].
    rewrite firstn_app, firstn_all, Nat.sub_diag.
    rewrite skipn_app, skipn_all2 by lia.
    replace (S (length visited) - length visited)%nat with 1%nat by lia.
    cbn [firstn skipn app]. rewrite app_nil_r.
    change (visited ++ f r :: todo) with (visited ++ [f r] ++ todo).
    rewrite app_assoc.
    replace (S (length visited)) with (length (visited ++ [f r]))
      by (rewrite length_app; simpl; lia).
    rewrite IH by (intros r' Hr'; apply Hf; right; exact Hr').
    rewrite <- app_assoc. reflexivity.
Qed.

Lemma iterrows_map `{Library} (web : geo) (table : list row) :
  named web = true -> Forall ready table ->
  for_each (seq 0 (length table)) (iterrows_step web) table
  = Ok (map (step web) table).
Proof.
  intros Hw Hr. rewrite Forall_forall in Hr.
  apply (iterrows_from web (step web) table []).
  intros r Hin. apply merge_row_step; auto.
Qed.

Lemma coords_loop `{Library} (coords : list geo) (table : list row) :
  forallb named coords = true -> Forall ready table ->
  for_each coords
    (fun table web => for_each (seq 0 (length table)) (iterrows_step web) table)
    table
  = Ok (map (fun r => fold_left (fun r web => step web r) coords r) table).
Proof.
  revert table. induction coords as [|web rest IH]; intros table Hw Hr.
  - cbn. rewrite map_id. reflexivity.
  - cbn [forallb] in Hw. apply andb_true_iff in Hw. destruct Hw as [Hw Hrest].
    cbn [for_each]. rewrite iterrows_map by assumption. cbn [bind].
    rewrite IH.
    + rewrite map_map. reflexivity.
    + exact Hrest.
    + rewrite Forall_forall in *. intros r' Hin.
      apply in_map_iff in Hin. destruct Hin as (r & <- & Hin).
      apply step_ready. apply Hr. exact Hin.
Qed.

(** After all points, a row holds the coordinates of its last match. *)
Lemma steps_last `{Library} (coords : list geo) (r : row) :
  ready r ->
  let r' := fold_left (fun r web => step web r) coords r in
  ready r' /\ name_of r' = name_of r
  /\ r' = match last_match coords r with
          | Some web => put_coords web r
          | None => r
          end.
Proof.
  intros Hr. cbv zeta. induction coords as [|web coords IH] using rev_ind.
  - cbn. auto.
  - rewrite fold_left_app. cbn [fold_left].
    destruct IH as (Hready & Hname & Hval).
    set (r1 := fold_left (fun r web => step web r) coords r) in *.
    destruct (step_ready web r1 Hready) as [Hready' Hname'].
    split; [exact Hready'|]. split; [congruence|].
    unfold last_match. rewrite rev_app_distr. cbn [rev app List.find].
    unfold step, row_matches. rewrite Hname.
    fold (row_matches web r).
    destruct (row_matches web r); [|exact Hval].
    rewrite Hval. fold (last_match coords r).
    destruct (last_match coords r); [|reflexivity].
    apply put_coords_twice. apply Hr.
Qed.

Lemma well_formed_parts (pris : frame) (coords : list geo) :
  well_formed pris coords = true ->
  (13 <= ncols pris)%nat
  /\ Forall (fun r => length r = ncols pris) (rows pris)
  /\ Forall (fun r => has_name r = true) (rows pris)
  /\ forallb named coords = true.
Proof.
  unfold well_formed. intros H.
  apply andb_true_iff in H. destruct H as [H Hc].
  apply andb_true_iff in H. destruct H as [Hn Hr].
  apply Nat.leb_le in Hn. rewrite forallb_forall in Hr.
  split; [exact Hn|]. split; [|split; [|exact Hc]].
  - apply Forall_forall. intros r Hin. specialize (Hr r Hin).
    apply andb_true_iff in Hr. destruct Hr as [Hr _].
    apply Nat.eqb_eq in Hr. exact Hr.
  - apply Forall_forall. intros r Hin. specialize (Hr r Hin).
    apply andb_true_iff in Hr. destruct Hr as [_ Hr]. exact Hr.
Qed.

Lemma last_match_prepare `{Library} (coords : list geo) (r : row) :
  name_of (prepare r) = name_of r ->
  last_match coords (prepare r) = last_match coords r.
Proof.
  intros E. unfold last_match, row_matches. rewrite E. reflexivity.
Qed.

Lemma merge_coordinates_ok `{Library} (pris : frame) (coords : list geo) :
  well_formed pris coords = true ->
  merge_coordinates pris coords
  = Ok {| ncols := S (S (ncols pris));
          rows := map (merged_row coords) (rows pris) |}.
Proof.
  intros Hwf.
  destruct (well_formed_parts pris coords Hwf) as (Hn & Hw & Hnames & Hc).
  unfold merge_coordinates. rewrite import_pris_ok by assumption.
  cbn [bind ncols rows].
  assert (Hready : Forall ready (map prepare (rows pris))).
  { rewrite Forall_forall in *. intros r' Hin.
    apply in_map_iff in Hin. destruct Hin as (r & <- & Hin).
    apply prepare_ready; [rewrite (Hw r Hin); exact Hn | apply Hnames; exact Hin]. }
  rewrite coords_loop by assumption. cbn [bind]. f_equal. f_equal.
  rewrite map_map. apply map_ext_in. intros r Hin.
  rewrite Forall_forall in Hw, Hnames.
  destruct (prepare_ready r) as [Hr Hname];
    [rewrite (Hw r Hin); exact Hn | apply Hnames; exact Hin |].
  destruct (steps_last coords (prepare r) Hr) as (_ & _ & E).
  rewrite E. unfold merged_row. rewrite last_match_prepare by exact Hname.
  reflexivity.
Qed.

(** *** Coordinates in the merged frame *)






(** *** Examples with the reference library *)

Lemma merge_row_rule_witness :
  exists prs',
    @merge_row reference (point (py "Ōi Nuclear Power Plant") 135 35)
      (prepare (pris_row (py "OHI-1"))) = Ok prs'
    /\ nth_error prs' 13 = Some (VNum (inject_Z 35))
    /\ nth_error prs' 14 = Some (VNum (inject_Z 135)).
Proof.
  destruct (@merge_row_rule reference
              (point (py "Ōi Nuclear Power Plant") 135 35)
              (prepare (pris_row (py "OHI-1")))
              (py "Ōi Nuclear Power Plant") (py "OHI-1")
              eq_refl eq_refl)
    as (webscrape_name & pris_name & -> & Hp & Hyes & _).
  - vm_compute. lia.
  - vm_compute in Hp. injection Hp as <-.
    destruct Hyes as (prs' & E & H13 & H14 & _).
    + right. exists (py "OHI-"), (py "Ōi").
      split; [left; reflexivity|]. split; reflexivity.
    + exists prs'. auto.
Defined.




(** * Further properties *)

(** ** [select_region] as a filter *)

Lemma for_each_app {A S} (a b : list A) (body : S -> A -> result S) (s : S) :
  for_each (a ++ b) body s = (s' <- for_each a body s ;; for_each b body s').
Proof.
  revert s. induction a as [|x a IH]; intros s; [reflexivity|].
  cbn [app for_each]. destruct (body s x); cbn [bind]; [apply IH | reflexivity].
Qed.

Lemma select_region_unfold `{Library} (in_list : list csv_row) (region : str) :
  select_region in_list region
  = if negb (member (upper region) (keys regions))
    then Raise (ValueError (region ++ py "is not a valid region"))
    else for_each in_list (select_body region) [].
Proof. reflexivity. Qed.

(** One turn of the loop. *)
Lemma select_body_row `{Library} (region : str) (acc : list csv_row) (row : csv_row) :
  select_body region acc row
  = if readable region row
    then Ok (if selected region row then acc ++ [row] else acc)
    else Raise (row_error row).
Proof.
  unfold select_body, readable, selected, row_error.
  destruct row as [|country rest]; [reflexivity|].
  change (nth 0 (country :: rest) []) with country.
  change (field (country :: rest) 0) with (Ok country). cbn [bind].
  destruct (in_region region country); [|reflexivity].
  cbn [andb].
  destruct (Nat.leb_spec 11 (length (country :: rest))) as [Hl | Hl].
  - unfold field.
    rewrite (nth_error_nth' (country :: rest) [] (n := 3)) by lia.
    rewrite (nth_error_nth' (country :: rest) [] (n := 10)) by lia.
    cbn [bind andb].
    destruct (Nat.ltb_spec (length (country :: rest)) 11) as [Hl' | _]; [lia|].
    destruct (confirm_deployment (nth 10 (country :: rest) [])
                (nth 3 (country :: rest) [])) as [[|]|e] eqn:Hc;
      cbn [bind]; try reflexivity.
    apply confirm_deployment_raises in Hc. destruct Hc as [-> _]. reflexivity.
  - destruct (Nat.ltb_spec (length (country :: rest)) 11) as [_ | Hl']; [|lia].
    cbn [andb]. unfold field.
    assert (H10 : nth_error (country :: rest) 10 = None)
      by (apply nth_error_None; lia).
    rewrite H10.
    destruct (nth_error (country :: rest) 3); reflexivity.
Qed.

Lemma select_loop_ok `{Library} (region : str) (in_list acc : list csv_row) :
  forallb (readable region) in_list = true ->
  for_each in_list (select_body region) acc
  = Ok (acc ++ filter (selected region) in_list).
Proof.
  revert acc. induction in_list as [|row rest IH]; intros acc Hr.
  - cbn. rewrite app_nil_r. reflexivity.
  - cbn [forallb] in Hr. apply andb_true_iff in Hr. destruct Hr as [Hrow Hrest].
    cbn [for_each filter]. rewrite select_body_row, Hrow. cbn [bind].
    rewrite IH by exact Hrest.
    destruct (selected region row); [|reflexivity].
    rewrite <- app_assoc. reflexivity.
Qed.

Lemma select_loop_returns `{Library} (region : str) (in_list acc l : list csv_row) :
  for_each in_list (select_body region) acc = Ok l ->
  forallb (readable region) in_list = true.
Proof.
  revert acc. induction in_list as [|row rest IH]; intros acc E; [reflexivity|].
  cbn [for_each] in E. rewrite select_body_row in E. cbn [forallb].
  destruct (readable region row); [|discriminate].
  cbn [bind andb] in *. apply IH in E. exact E.
Qed.

(** What [select_region] returns is the selected rows, and it returns
    when the region is known and the rows are readable. *)
Lemma select_region_returns `{Library} (in_list l : list csv_row) (region : str) :
  select_region in_list region = Ok l ->
  In (upper region) region_names
  /\ forallb (readable region) in_list = true
  /\ l = filter (selected region) in_list.
Proof.
  rewrite select_region_unfold, keys_regions.
  destruct (member (upper region) region_names) eqn:Hm; cbn [negb];
    [|discriminate].
  apply member_In in Hm. intros E.
  pose proof (select_loop_returns _ _ _ _ E) as Hr.
  rewrite (select_loop_ok region in_list [] Hr) in E. cbn [app] in E.
  inversion E. auto.
Qed.

Lemma select_region_readable `{Library} (in_list : list csv_row) (region : str) :
  In (upper region) region_names ->
  forallb (readable region) in_list = true ->
  select_region in_list region = Ok (filter (selected region) in_list).
Proof.
  intros Hin Hr. rewrite select_region_unfold, keys_regions.
  apply member_In in Hin. rewrite Hin. cbn [negb].
  apply (select_loop_ok region in_list [] Hr).
Qed.

(** X1.  [select_region] returns a list exactly when the region is one of
    the seven names and every row is readable; the list is then the rows
    that pass the region test and the deployment check, in their order. *)
Theorem select_region_filter `{Library} (in_list l : list csv_row) (region : str) :
  select_region in_list region = Ok l <->
  In (upper region) region_names
  /\ forallb (readable region) in_list = true
  /\ l = filter (selected region) in_list.
Proof.
  split.
  - apply select_region_returns.
  - intros (Hin & Hr & ->). apply select_region_readable; assumption.
Qed.

(** X2.  The first row that is not readable ends [select_region]: with
    [IndexError] when the row is empty, as for a blank line of the file, or
    is of the region and has fewer than eleven fields, and with the
    conversion error of its capacity otherwise.  No list is returned. *)
Theorem select_region_first_error `{Library} (pre post : list csv_row)
  (row : csv_row) (region : str) :
  In (upper region) region_names ->
  forallb (readable region) pre = true ->
  readable region row = false ->
  select_region (pre ++ row :: post) region
  = Raise (if (length row <? 11)%nat then IndexError
           else FloatError (nth 3 row [])).
Proof.
  intros Hin Hpre Hrow. rewrite select_region_unfold, keys_regions.
  apply member_In in Hin. rewrite Hin. cbn [negb].
  rewrite for_each_app, (select_loop_ok region pre [] Hpre). cbn [bind for_each].
  rewrite select_body_row, Hrow. reflexivity.
Qed.

Lemma select_region_first_error_witness :
  @select_region reference
    [reactor_row (py "FRANCE") (py "BUGEY-2") (py "1979-03-01"); [];
     reactor_row (py "FRANCE") (py "BUGEY-3") (py "1979-03-01")]
    (py "ALL") = Raise IndexError
  /\ @select_region reference
       [[py "France"; py "BUGEY-2"; py "PWR"; py "n/a"; []; []; []; []; []; [];
         py "1979-03-01"]]
       (py "Europe") = Raise (FloatError (py "n/a")).
Proof.
  split.
  - apply (@select_region_first_error reference
             [reactor_row (py "FRANCE") (py "BUGEY-2") (py "1979-03-01")]
             [reactor_row (py "FRANCE") (py "BUGEY-3") (py "1979-03-01")]
             [] (py "ALL")).
    + vm_compute. tauto.
    + reflexivity.
    + reflexivity.
  - apply (@select_region_first_error reference [] []
             [py "France"; py "BUGEY-2"; py "PWR"; py "n/a"; []; []; []; []; [];
              []; py "1979-03-01"] (py "Europe")).
    + vm_compute. tauto.
    + reflexivity.
    + reflexivity.
Defined.

(** X3.  The region is read without regard to case: two spellings with the
    same upper-case form, one of the seven names, select the same rows and
    fail alike. *)
Theorem select_region_case `{Library} (in_list : list csv_row) (r1 r2 : str) :
  upper r1 = upper r2 ->
  In (upper r1) region_names ->
  select_region in_list r1 = select_region in_list r2.
Proof.
  intros E Hin. rewrite !select_region_unfold, <- E, keys_regions.
  apply member_In in Hin. rewrite Hin. cbn [negb].
  assert (Hb : forall acc row, select_body r1 acc row = select_body r2 acc row).
  { intros acc row. unfold select_body, in_region. rewrite E. reflexivity. }
  generalize (@nil csv_row).
  induction in_list as [|row rest IH]; intros acc; [reflexivity|].
  cbn [for_each]. rewrite Hb.
  destruct (select_body r2 acc row); cbn [bind]; [apply IH | reflexivity].
Qed.

Lemma select_region_case_witness :
  @select_region reference
    [reactor_row (py "France") (py "BUGEY-2") (py "1979-03-01")] (py "europe")
  = @select_region reference
      [reactor_row (py "France") (py "BUGEY-2") (py "1979-03-01")] (py "EUROPE").
Proof.
  apply (@select_region_case reference).
  - reflexivity.
  - vm_compute. tauto.
Defined.

Lemma selected_parseable `{Library} (region : str) (row : csv_row) :
  selected region row = true -> parseable row = true.
Proof.
  unfold selected, parseable. intros Hs.
  apply andb_true_iff in Hs. destruct Hs as [_ Hs].
  destruct (confirm_deployment (nth 10 row []) (nth 3 row [])) as [[|]|] eqn:Hc;
    try discriminate.
  apply confirm_deployment_true in Hc. destruct Hc as (Hl & _ & d & Hd).
  destruct (nth_error row 10) as [s|] eqn:H10.
  - rewrite (nth_error_nth_default row 10 s [] H10) in Hd. rewrite Hd. reflexivity.
  - apply nth_error_None in H10. rewrite nth_overflow in Hl by exact H10.
    unfold len in Hl. simpl in Hl. lia.
Qed.

(** X4.  Whatever [select_region] returns, [get_buildtime] takes without
    raising, for any start year and any list of paths: every selected
    row has a commercial date that parses. *)
Theorem select_then_buildtime `{Library} (in_list l : list csv_row) (region : str)
  (start_year : Z) (path_list : list str) :
  select_region in_list region = Ok l ->
  forallb parseable l = true
  /\ exists buildtime_dict, get_buildtime l start_year path_list = Ok buildtime_dict.
Proof.
  intros E. apply select_region_returns in E. destruct E as (_ & _ & ->).
  assert (Hp : forallb parseable (filter (selected region) in_list) = true).
  { apply forallb_forall. intros row Hin. apply filter_In in Hin.
    destruct Hin as [_ Hs]. apply (selected_parseable region). exact Hs. }
  split; [exact Hp|]. eexists. apply get_buildtime_schedule. exact Hp.
Qed.

Lemma select_then_buildtime_witness :
  exists l buildtime_dict,
    @select_region reference
      [reactor_row (py "France") (py "BUGEY-2") (py "1979-03-01");
       reactor_row (py "Japan") (py "OHI-1") (py "1979-03-27")] (py "europe")
    = Ok l
    /\ @get_buildtime reference l 1970 [py "reactors/BUGEY-2.xml"]
       = Ok buildtime_dict.
Proof.
  destruct (@select_then_buildtime reference
              [reactor_row (py "France") (py "BUGEY-2") (py "1979-03-01");
               reactor_row (py "Japan") (py "OHI-1") (py "1979-03-27")]
              [reactor_row (py "France") (py "BUGEY-2") (py "1979-03-01")]
              (py "europe") 1970 [py "reactors/BUGEY-2.xml"])
    as (_ & d & Hd).
  - vm_compute. reflexivity.
  - eexists. exists d. split; [vm_compute; reflexivity | exact Hd].
Defined.

(** ** [import_pris] *)




(** ** [sanitize_webscrape_name] *)

Lemma split_ws_words (cur s : str) :
  forallb (fun c => negb (is_space c)) cur = true ->
  Forall word (split_ws cur s).
Proof.
  revert cur. induction s as [|c s IH]; intros cur Hcur.
  - cbn. destruct cur as [|x cur]; [constructor|].
    constructor; [|constructor]. split.
    + intros E. apply (f_equal (@length char)) in E.
      rewrite length_rev in E. discriminate.
    + apply forallb_forall. intros y Hy. apply in_rev in Hy.
      rewrite forallb_forall in Hcur. apply Hcur. exact Hy.
  - cbn [split_ws]. destruct (is_space c) eqn:Hc.
    + destruct cur as [|x cur]; [apply IH; reflexivity|].
      constructor; [|apply IH; reflexivity]. split.
      * intros E. apply (f_equal (@length char)) in E.
        rewrite length_rev in E. discriminate.
      * apply forallb_forall. intros y Hy. apply in_rev in Hy.
        rewrite forallb_forall in Hcur. apply Hcur. exact Hy.
    + apply IH. cbn [forallb]. rewrite Hc. exact Hcur.
Qed.

Lemma spaced_word (w s : str) (b : bool) :
  word w -> spaced b (w ++ s) = spaced false s.
Proof.
  intros [Hne Hw]. destruct w as [|c w]; [congruence|]. clear Hne.
  revert b c Hw. induction w as [|d w IH]; intros b c Hw.
  - cbn in *. rewrite andb_true_r in Hw. apply negb_true_iff in Hw.
    rewrite Hw. reflexivity.
  - cbn [forallb] in Hw. apply andb_true_iff in Hw. destruct Hw as [Hc Hw].
    apply negb_true_iff in Hc. cbn [app spaced]. rewrite Hc.
    apply (IH false d Hw).
Qed.

Lemma spaced_join (ws : list str) :
  Forall word ws -> ws <> [] -> spaced true (join [32%N] ws) = true.
Proof.
  induction ws as [|w ws IH]; intros Hw Hne; [congruence|].
  inversion Hw as [|? ? Hword Hrest]. subst.
  destruct ws as [|w' ws].
  - cbn [join]. rewrite <- (app_nil_r w), spaced_word by exact Hword.
    reflexivity.
  - change (join [32%N] (w :: w' :: ws))
      with (w ++ [32%N] ++ join [32%N] (w' :: ws)).
    rewrite spaced_word by exact Hword.
    cbn [app spaced]. change (is_space 32%N) with true. cbv iota.
    rewrite IH by (auto; discriminate). reflexivity.
Qed.

Lemma spaced_blank_is_space (b : bool) (s : str) (c : char) :
  spaced b s = true -> In c s -> is_space c = true -> c = 32%N.
Proof.
  revert b. induction s as [|x s IH]; intros b Hs Hin Hc; [contradiction|].
  cbn [spaced] in Hs. destruct Hin as [-> | Hin].
  - rewrite Hc in Hs. apply andb_true_iff in Hs. destruct Hs as [Hs _].
    apply andb_true_iff in Hs. destruct Hs as [Hs _].
    apply N.eqb_eq. exact Hs.
  - destruct (is_space x).
    + apply andb_true_iff in Hs. destruct Hs as [_ Hs]. apply (IH true); auto.
    + apply (IH false); auto.
Qed.

Lemma spaced_no_double (b : bool) (pre post : str) (x y : char) :
  spaced b (pre ++ x :: y :: post) = true ->
  is_space x = true -> is_space y = false.
Proof.
  revert b. induction pre as [|c pre IH]; intros b Hs Hx.
  - cbn [app spaced] in Hs. rewrite Hx in Hs.
    apply andb_true_iff in Hs. destruct Hs as [_ Hs].
    destruct (is_space y); [|reflexivity].
    rewrite andb_false_r in Hs. discriminate.
  - cbn [app spaced] in Hs. destruct (is_space c).
    + apply andb_true_iff in Hs. destruct Hs as [_ Hs]. apply (IH true); auto.
    + apply (IH false); auto.
Qed.

Lemma spaced_no_trailing (b : bool) (pre : str) (x : char) :
  spaced b (pre ++ [x]) = true -> is_space x = false.
Proof.
  revert b. induction pre as [|c pre IH]; intros b Hs.
  - cbn [app spaced] in Hs. destruct (is_space x); [|reflexivity].
    rewrite andb_false_r in Hs. discriminate.
  - cbn [app spaced] in Hs. destruct (is_space c).
    + apply andb_true_iff in Hs. destruct Hs as [_ Hs]. apply (IH true). exact Hs.
    + apply (IH false). exact Hs.
Qed.

(** X6.  A name that [sanitize_webscrape_name] returns has its white space
    in order: every blank in it is a single space character between two
    characters that are not blank, so it neither starts nor ends with a
    blank and holds no two blanks in a row. *)
Theorem sanitize_webscrape_name_spaces (name : str) :
  let cleaned := sanitize_webscrape_name name in
  (forall c, In c cleaned -> is_space c = true -> c = 32%N)
  /\ (forall c rest, cleaned = c :: rest -> is_space c = false)
  /\ (forall c pre, cleaned = pre ++ [c] -> is_space c = false)
  /\ (forall pre post x y,
         cleaned = pre ++ x :: y :: post ->
         is_space x = true -> is_space y = false).
Proof.
  cbv zeta. unfold sanitize_webscrape_name.
  match goal with |- context [split ?t] => generalize t end.
  intros t. change (py " ") with (@cons char 32%N (@nil char)).
  pose proof (split_ws_words [] t eq_refl) as Hw. fold (split t) in Hw.
  destruct (split t) as [|w ws] eqn:Es.
  - cbn [join]. repeat split; intros; try contradiction;
      try discriminate; destruct pre; discriminate.
  - assert (Hs : spaced true (join (@cons char 32%N (@nil char)) (w :: ws)) = true)
      by (apply (spaced_join (w :: ws)); [exact Hw | discriminate]).
    split; [|split; [|split]].
    + intros c Hin Hc. apply (spaced_blank_is_space true _ c Hs Hin Hc).
    + intros c rest E. rewrite E in Hs. cbn [spaced] in Hs.
      destruct (is_space c); [|reflexivity].
      rewrite andb_false_r in Hs. discriminate.
    + intros c pre E. rewrite E in Hs. apply (spaced_no_trailing true pre c Hs).
    + intros pre post x y E Hx. rewrite E in Hs.
      apply (spaced_no_double true pre post x y Hs Hx).
Qed.

(** ** [sanitize_pris_name] with two hyphens *)

Lemma find_char_app (c : char) (a s : str) :
  ~ In c a -> find [c] (a ++ c :: s) = len a.
Proof.
  intros Hn. induction a as [|x a IH].
  - cbn. rewrite N.eqb_refl. reflexivity.
  - change ((x :: a) ++ c :: s) with (x :: (a ++ c :: s)).
    rewrite find_cons. cbn [starts_with].
    destruct (N.eqb_spec c x) as [-> | _].
    + exfalso. apply Hn. left. reflexivity.
    + cbn [andb]. rewrite IH by (intros H; apply Hn; right; exact H).
      pose proof (len_nonneg a).
      destruct (Z.eqb_spec (len a) (-1)) as [E | _]; [lia|].
      unfold len. cbn [length]. lia.
Qed.

Lemma skipn_after (a s : str) (c : char) :
  skipn (Z.to_nat (len a + 1)) (a ++ c :: s) = s.
Proof.
  replace (Z.to_nat (len a + 1)) with (length (a ++ [c]))
    by (rewrite length_app; unfold len; cbn [length]; lia).
  change (a ++ c :: s) with (a ++ [c] ++ s). rewrite app_assoc.
  rewrite skipn_app, skipn_all, Nat.sub_diag. reflexivity.
Qed.

(** X7.  When the lower-cased name ends in a digit and holds a second
    hyphen, [sanitize_pris_name] keeps the text up to the second hyphen
    less its last character: ["a-bc-..."] gives ["a-b"].  When the second
    hyphen follows the first at once, the cut is at the first hyphen. *)
Theorem sanitize_pris_name_two_hyphens (name a b rest : str) (c : char) :
  ~ In hyphen a -> ~ In hyphen b -> c <> hyphen ->
  ends_in_digit (lower name) = true ->
  (lower name = a ++ hyphen :: b ++ c :: hyphen :: rest ->
   sanitize_pris_name name = Ok (a ++ hyphen :: b))
  /\ (lower name = a ++ hyphen :: hyphen :: rest ->
      sanitize_pris_name name = Ok a).
Proof.
  intros Ha Hb Hc Hd. rewrite sanitize_pris_name_ok. unfold pris_name_of.
  change (py "-") with (@cons char hyphen (@nil char)).
  rewrite Hd. pose proof (len_nonneg a) as Hla.
  pose proof (len_nonneg b) as Hlb.
  split; intros E; rewrite E.
  - rewrite (find_char_app hyphen a _ Ha), skipn_after.
    assert (Hj : find [hyphen] (b ++ c :: hyphen :: rest) = len b + 1).
    { assert (Hbc : ~ In hyphen (b ++ [c])).
      { intros H. apply in_app_or in H. destruct H as [H | [H | []]]; auto. }
      change (b ++ c :: hyphen :: rest) with (b ++ [c] ++ hyphen :: rest).
      rewrite app_assoc, (find_char_app hyphen (b ++ [c]) rest Hbc).
      unfold len. rewrite length_app. cbn [length]. lia. }
    rewrite Hj.
    destruct (Z.eqb_spec (len a) (-1)) as [H | _]; [lia|].
    destruct (Z.eqb_spec (len b + 1) (-1)) as [H | _]; [lia|].
    cbn [negb andb]. f_equal.
    replace (Z.to_nat (len a + (len b + 1))) with (length (a ++ hyphen :: b))
      by (rewrite length_app; unfold len in *; cbn [length]; lia).
    change (a ++ hyphen :: b ++ c :: hyphen :: rest)
      with (a ++ (hyphen :: b) ++ c :: hyphen :: rest).
    rewrite app_assoc.
    rewrite firstn_app, firstn_all, Nat.sub_diag. cbn [firstn].
    apply app_nil_r.
  - rewrite (find_char_app hyphen a _ Ha), skipn_after.
    assert (Hj : find [hyphen] (hyphen :: rest) = 0) by reflexivity.
    rewrite Hj.
    destruct (Z.eqb_spec (len a) (-1)) as [H | _]; [lia|].
    cbn [negb andb Z.eqb]. f_equal.
    replace (Z.to_nat (len a + 0)) with (length a) by (unfold len; lia).
    rewrite firstn_app, firstn_all, Nat.sub_diag. cbn [firstn].
    apply app_nil_r.
Qed.

Lemma sanitize_pris_name_two_hyphens_witness :
  sanitize_pris_name (py "SHIN-WOLSONG-2") = Ok (py "shin-wolson")
  /\ sanitize_pris_name (py "A--1") = Ok (py "a").
Proof.
  split.
  - apply (proj1 (sanitize_pris_name_two_hyphens (py "SHIN-WOLSONG-2")
                    (py "shin") (py "wolson") (py "2") 103%N
                    ltac:(vm_compute; intuition discriminate)
                    ltac:(vm_compute; intuition discriminate)
                    ltac:(discriminate) eq_refl)).
    reflexivity.
  - apply (proj2 (sanitize_pris_name_two_hyphens (py "A--1")
                    (py "a") [] (py "1") 0%N
                    ltac:(vm_compute; intuition discriminate)
                    ltac:(vm_compute; intuition discriminate)
                    ltac:(discriminate) eq_refl)).
    reflexivity.
Defined.

(** ** [is_int] *)










(** ** Errors of [get_lifetime] and [get_buildtime] *)

(** X9.  [get_lifetime] raises [IndexError] exactly when the row has fewer
    than twelve fields, also when the shutdown field would be blank.  With
    a shutdown date that is not blank, a date that does not parse is not
    passed over as in [confirm_deployment]: the parser's error is raised,
    for the shutdown date first and for the commercial date after it. *)
Theorem get_lifetime_errors `{Library} (in_row : csv_row) :
  (get_lifetime in_row = Raise IndexError <-> (length in_row < 12)%nat)
  /\ (forall comm_date shutdown_date,
         nth_error in_row 10 = Some comm_date ->
         nth_error in_row 11 = Some shutdown_date ->
         forallb is_space shutdown_date = false ->
         (date_parse shutdown_date = None ->
          get_lifetime in_row = Raise (ParserError shutdown_date))
         /\ (date_parse shutdown_date <> None ->
             date_parse comm_date = None ->
             get_lifetime in_row = Raise (ParserError comm_date))).
Proof.
  split.
  - unfold get_lifetime, field.
    destruct (nth_error in_row 11) as [s|] eqn:H11.
    + assert (Hl : (11 < length in_row)%nat)
        by (apply nth_error_Some; congruence).
      destruct (nth_error in_row 10) as [c|] eqn:H10;
        [|apply nth_error_None in H10; lia].
      cbn [bind]. split; [|lia]. intros E. exfalso.
      destruct (strip s); [discriminate|].
      unfold parse in E.
      destruct (date_parse s) as [ds|]; [|discriminate]. cbn [bind] in E.
      destruct (date_parse c) as [dc|]; [|discriminate]. cbn [bind] in E.
      unfold days_between in E.
      destruct (utcoffset ds), (utcoffset dc); discriminate.
    + apply nth_error_None in H11. split; [intros _; lia|]. intros _.
      destruct (nth_error in_row 10); reflexivity.
  - intros c s H10 H11 Hb. unfold get_lifetime, field.
    rewrite H10, H11. cbn [bind].
    destruct (strip s) as [|x t] eqn:Hs;
      [apply strip_blank in Hs; congruence|].
    unfold parse. split.
    + intros Hd. rewrite Hd. reflexivity.
    + intros Hd Hc. destruct (date_parse s); [|congruence].
      cbn [bind]. rewrite Hc. reflexivity.
Qed.

Lemma get_lifetime_errors_witness :
  @get_lifetime reference [py "JAPAN"; py "OHI-1"] = Raise IndexError
  /\ @get_lifetime reference (dated_row (py "1980-01-01") (py "soon"))
     = Raise (ParserError (py "soon"))
  /\ @get_lifetime reference (dated_row (py "n/a") (py "2010-01-01"))
     = Raise (ParserError (py "n/a")).
Proof.
  split; [|split].
  - apply (proj1 (@get_lifetime_errors reference [py "JAPAN"; py "OHI-1"])).
    cbn. lia.
  - apply (proj2 (@get_lifetime_errors reference
                    (dated_row (py "1980-01-01") (py "soon")))
                 (py "1980-01-01") (py "soon") eq_refl eq_refl eq_refl).
    reflexivity.
  - apply (proj2 (@get_lifetime_errors reference
                    (dated_row (py "n/a") (py "2010-01-01")))
                 (py "n/a") (py "2010-01-01") eq_refl eq_refl eq_refl).
    + discriminate.
    + reflexivity.
Defined.

(** X10.  [get_buildtime] reads the commercial date of every row, listed
    or not: after rows whose dates parse, the first row without field 10
    raises [IndexError] and the first row whose date does not parse raises
    the parser's error, whatever the paths are, and no dictionary is
    returned.  With no path at all, rows whose dates parse give the empty
    dictionary. *)
Theorem get_buildtime_errors `{Library} (pre post : list csv_row) (row : csv_row)
  (start_year : Z) (path_list : list str) :
  forallb parseable pre = true ->
  (nth_error row 10 = None ->
   get_buildtime (pre ++ row :: post) start_year path_list = Raise IndexError)
  /\ (forall comm_date,
         nth_error row 10 = Some comm_date -> date_parse comm_date = None ->
         get_buildtime (pre ++ row :: post) start_year path_list
         = Raise (ParserError comm_date))
  /\ get_buildtime pre start_year [] = Ok [].
Proof.
  intros Hpre.
  split; [|split].
  - intros H10. unfold get_buildtime. rewrite for_each_app.
    match goal with
    | |- bind ?X _ = _ =>
        replace X with (Ok (schedule start_year path_list pre []))
          by (symmetry; apply rows_loop; exact Hpre)
    end.
    cbn [bind for_each]. unfold field at 1. rewrite H10. reflexivity.
  - intros c H10 Hd. unfold get_buildtime. rewrite for_each_app.
    match goal with
    | |- bind ?X _ = _ =>
        replace X with (Ok (schedule start_year path_list pre []))
          by (symmetry; apply rows_loop; exact Hpre)
    end.
    cbn [bind for_each]. unfold field at 1. rewrite H10. cbn [bind].
    unfold parse. rewrite Hd. reflexivity.
  - rewrite (get_buildtime_schedule pre start_year [] Hpre). f_equal.
    unfold schedule. clear Hpre. induction pre as [|r pre IH]; [reflexivity|].
    cbn [fold_left listed existsb]. exact IH.
Qed.

Lemma get_buildtime_errors_witness :
  @get_buildtime reference
    [reactor_row (py "FRANCE") (py "BUGEY-2") (py "1979-03-01");
     reactor_row (py "FRANCE") (py "BUGEY-3") (py "unknown")]
    1970 [py "reactors/BUGEY-2.xml"]
  = Raise (ParserError (py "unknown"))
  /\ @get_buildtime reference
       [reactor_row (py "FRANCE") (py "BUGEY-2") (py "1979-03-01")] 1970 []
     = Ok [].
Proof.
  destruct (@get_buildtime_errors reference
              [reactor_row (py "FRANCE") (py "BUGEY-2") (py "1979-03-01")] []
              (reactor_row (py "FRANCE") (py "BUGEY-3") (py "unknown"))
              1970 [py "reactors/BUGEY-2.xml"] eq_refl)
    as (_ & Hparse & _).
  destruct (@get_buildtime_errors reference
              [reactor_row (py "FRANCE") (py "BUGEY-2") (py "1979-03-01")] []
              [] 1970 [] eq_refl)
    as (_ & _ & Hempty).
  split; [|exact Hempty].
  apply (Hparse (py "unknown")); reflexivity.
Defined.

(** ** What the merge leaves alone *)

Lemma merged_row_other_cells `{Library} (coords : list geo) (r : row) (k : nat) :
  (13 <= length r)%nat -> k <> 13%nat -> k <> 14%nat ->
  nth_error (merged_row coords r) k = nth_error (prepare r) k.
Proof.
  intros Hl H13 H14. unfold merged_row.
  destruct (last_match coords r) as [web|]; [|reflexivity].
  destruct (prepare_cells r Hl) as (Hlen & _).
  destruct (put_coords_cells web (prepare r)) as (_ & _ & Hk); [lia|].
  apply Hk; assumption.
Qed.

(** X11.  The merge changes nothing but the two coordinate cells: the
    merged frame has the columns and the rows, in order and number, of the
    frame [import_pris] returns, and every cell other than cells 13 and 14
    is the cell of that frame. *)
Theorem merge_coordinates_frame `{Library} (pris : frame) (coords : list geo) :
  well_formed pris coords = true ->
  exists imported out,
    import_pris pris = Ok imported
    /\ merge_coordinates pris coords = Ok out
    /\ ncols out = ncols imported
    /\ length (rows out) = length (rows imported)
    /\ forall i k r r',
         nth_error (rows imported) i = Some r ->
         nth_error (rows out) i = Some r' ->
         length r' = length r
         /\ (k <> 13%nat -> k <> 14%nat -> nth_error r' k = nth_error r k).
Proof.
  intros Hwf.
  destruct (well_formed_parts pris coords Hwf) as (Hn & Hw & _).
  do 2 eexists. split; [apply import_pris_ok; assumption|].
  split; [apply merge_coordinates_ok; exact Hwf|]. cbn [ncols rows].
  split; [reflexivity|]. split; [rewrite !length_map; reflexivity|].
  intros i k r r' Hr Hr'. rewrite nth_error_map in Hr, Hr'.
  destruct (nth_error (rows pris) i) as [r0|] eqn:H0; [|discriminate].
  cbn [option_map] in Hr, Hr'. inversion Hr. inversion Hr'. subst r r'.
  rewrite Forall_forall in Hw.
  assert (Hl : (13 <= length r0)%nat)
    by (rewrite (Hw r0 (nth_error_In _ _ H0)); exact Hn).
  split; [|intros; apply merged_row_other_cells; assumption].
  unfold merged_row. destruct (last_match coords r0) as [web|]; [|reflexivity].
  apply length_put_coords. destruct (prepare_cells r0 Hl) as (Hlen & _). lia.
Qed.

Lemma merge_coordinates_frame_witness :
  exists imported out,
    import_pris (table [py "TOMARI-2"; py "ZED"]) = Ok imported
    /\ @merge_coordinates reference (table [py "TOMARI-2"; py "ZED"])
         [point (py "Tomari") 4 3] = Ok out
    /\ map (firstn 13) (rows out) = map (firstn 13) (rows imported).
Proof.
  destruct (@merge_coordinates_frame reference (table [py "TOMARI-2"; py "ZED"])
              [point (py "Tomari") 4 3] eq_refl)
    as (imported & out & Ei & Eo & _).
  exists imported, out. split; [exact Ei|]. split; [exact Eo|].
  vm_compute in Ei, Eo. injection Ei as <-. injection Eo as <-. reflexivity.
Defined.

(** X12.  The geo points are looked at only against a row: with a frame
    of no rows the merge returns what [import_pris] returns, whatever the
    points hold.  With at least one row, the first point whose name is not
    text, after points whose names are text, raises [AttributeError]. *)
Theorem merge_coordinates_names `{Library} (pris : frame) (pre post : list geo)
  (web : geo) :
  (rows pris = [] ->
   merge_coordinates pris (pre ++ web :: post) = import_pris pris)
  /\ (well_formed pris pre = true -> rows pris <> [] -> named web = false ->
      merge_coordinates pris (pre ++ web :: post) = Raise AttributeError).
Proof.
  split.
  - intros Hrows. unfold merge_coordinates, import_pris, insert_column.
    destruct (13 <=? ncols pris)%nat; [|reflexivity]. cbn [bind ncols rows].
    destruct (14 <=? S (ncols pris))%nat; [|reflexivity]. cbn [bind ncols rows].
    rewrite Hrows. cbn [map].
    generalize (pre ++ web :: post). intros coords.
    induction coords as [|w coords IH]; [reflexivity|].
    cbn [for_each length seq bind] in *. exact IH.
  - intros Hwf Hne Hweb.
    destruct (well_formed_parts pris pre Hwf) as (Hn & Hw & Hnames & Hc).
    unfold merge_coordinates. rewrite import_pris_ok by assumption.
    cbn [bind ncols rows]. rewrite for_each_app.
    assert (Hready : Forall ready (map prepare (rows pris))).
    { rewrite Forall_forall in *. intros r' Hin.
      apply in_map_iff in Hin. destruct Hin as (r & <- & Hin).
      apply prepare_ready;
        [rewrite (Hw r Hin); exact Hn | apply Hnames; exact Hin]. }
    rewrite coords_loop by assumption. cbn [bind for_each].
    destruct (rows pris) as [|r0 rest]; [congruence|].
    cbn [map length seq for_each]. unfold iterrows_step at 1.
    cbn [nth_error]. unfold merge_row at 1. unfold named in Hweb.
    destruct (g_name web); [discriminate | reflexivity | reflexivity].
Qed.

Lemma merge_coordinates_names_witness :
  @merge_coordinates reference (table [py "TOMARI-2"])
    [point (py "Tomari") 4 3;
     {| g_name := VNull; g_long := VNum (inject_Z 6); g_lat := VNum (inject_Z 5) |}]
  = Raise AttributeError.
Proof.
  apply (proj2 (@merge_coordinates_names reference (table [py "TOMARI-2"])
                  [point (py "Tomari") 4 3] []
                  {| g_name := VNull; g_long := VNum (inject_Z 6);
                     g_lat := VNum (inject_Z 5) |})).
  - reflexivity.
  - discriminate.
  - reflexivity.
Defined.

(** ** Recipes *)

Lemma record_nuclide_entry `{Library} `{Nuclides} (row : csv_row) (column : nat)
  (d : list (Z * pyfloat)) :
  record_nuclide row column d
  = match nuclide_entry column row with
    | Done (key, x) => Done (update_id key x d)
    | Failed e => Failed e
    end.
Proof.
  unfold record_nuclide, nuclide_entry.
  destruct (nth_error row 0) as [name|]; [|reflexivity].
  destruct (nn_id name) as [key|]; [|reflexivity].
  destruct (nth_error row column) as [amount|]; [|reflexivity].
  destruct (float amount); reflexivity.
Qed.

(** The loop over the indices reads the rows from the third on. *)
Lemma composition_from `{Library} `{Nuclides} (in_list : list csv_row)
  (f : csv_row -> list (Z * pyfloat) -> attempt (list (Z * pyfloat)))
  (seen todo : list csv_row) (d : list (Z * pyfloat)) :
  in_list = seen ++ todo -> (2 <= length seen)%nat ->
  attempt_each (seq (length seen) (length todo))
    (fun data_dict i =>
       if (1 <? i)%nat
       then match nth_error in_list i with
            | None => Failed (Python IndexError)
            | Some row => f row data_dict
            end
       else Done data_dict)
    d
  = attempt_each todo (fun data_dict row => f row data_dict) d.
Proof.
  revert seen d. induction todo as [|row todo IH]; intros seen d E Hs.
  - reflexivity.
  - cbn [length seq attempt_each].
    destruct (Nat.ltb_spec 1 (length seen)) as [_ | Hlt]; [|lia].
    rewrite E, nth_error_app2, Nat.sub_diag by lia. cbn [nth_error].
    destruct (f row d) as [d'|e]; [|reflexivity].
    rewrite <- E.
    replace (S (length seen)) with (length (seen ++ [row]))
      by (rewrite length_app; cbn [length]; lia).
    apply IH.
    + rewrite <- app_assoc. exact E.
    + rewrite length_app. lia.
Qed.

Lemma fresh_rows `{Library} `{Nuclides} (h1 h2 : csv_row) (body : list csv_row)
  (burnup : Z) :
  get_composition_fresh (h1 :: h2 :: body) burnup
  = compose (column_of 1 burnup) body [].
Proof.
  unfold get_composition_fresh, compose, column_of.
  cbn [length seq attempt_each Nat.ltb Nat.leb].
  destruct (burnup =? 33); [|destruct (burnup =? 51)];
    apply (composition_from (h1 :: h2 :: body) _ [h1; h2] body []);
    cbn; auto.
Qed.

Lemma spent_rows `{Library} `{Nuclides} (h1 h2 : csv_row) (body : list csv_row)
  (burnup : Z) :
  get_composition_spent (h1 :: h2 :: body) burnup
  = compose (column_of 2 burnup) body [].
Proof.
  unfold get_composition_spent, compose, column_of.
  cbn [length seq attempt_each Nat.ltb Nat.leb].
  destruct (burnup =? 33); [|destruct (burnup =? 51)];
    apply (composition_from (h1 :: h2 :: body) _ [h1; h2] body []);
    cbn; auto.
Qed.

(** X13.  Both compositions leave the first two rows of the recipe file
    unread: a list of at most two rows gives the empty dictionary, and the
    result for a longer list does not depend on what its first two rows
    are. *)
Theorem composition_headers `{Library} `{Nuclides} :
  (forall in_list burnup,
      (length in_list <= 2)%nat ->
      get_composition_fresh in_list burnup = Done []
      /\ get_composition_spent in_list burnup = Done [])
  /\ (forall h1 h2 h1' h2' body burnup,
         get_composition_fresh (h1 :: h2 :: body) burnup
         = get_composition_fresh (h1' :: h2' :: body) burnup
         /\ get_composition_spent (h1 :: h2 :: body) burnup
            = get_composition_spent (h1' :: h2' :: body) burnup).
Proof.
  split.
  - intros in_list burnup Hl.
    destruct in_list as [|h1 [|h2 [|h3 rest]]]; cbn in Hl; try lia;
      split; reflexivity.
  - intros. rewrite !fresh_rows, !spent_rows. split; reflexivity.
Qed.

Lemma composition_headers_witness :
  @get_composition_fresh reference sample_nuclides (firstn 2 sample_recipe) 33
  = Done []
  /\ @get_composition_fresh reference sample_nuclides sample_recipe 33
     = @get_composition_fresh reference sample_nuclides
         ([] :: [] :: skipn 2 sample_recipe) 33.
Proof.
  destruct (@composition_headers reference sample_nuclides) as [Hshort Hany].
  split.
  - apply Hshort. cbn. lia.
  - apply (Hany _ _ [] [] (skipn 2 sample_recipe) 33).
Defined.

Lemma shift_left_cells (row : csv_row) (k : nat) :
  nth_error (shift_left row) 0 = nth_error row 0
  /\ ((1 <= k)%nat -> nth_error (shift_left row) k = nth_error row (S k)).
Proof.
  destruct row as [|name [|x rest]]; cbn [shift_left]; split; try reflexivity.
  - intros Hk. destruct k; reflexivity.
  - intros Hk. destruct k as [|[|k]]; try lia; reflexivity.
  - intros Hk. destruct k as [|k]; [lia | reflexivity].
Qed.

Lemma nuclide_entry_shift `{Library} `{Nuclides} (row : csv_row) (k : nat) :
  (1 <= k)%nat ->
  nuclide_entry k (shift_left row) = nuclide_entry (S k) row.
Proof.
  intros Hk. unfold nuclide_entry.
  destruct (shift_left_cells row k) as [E0 Ek]. rewrite E0, Ek by exact Hk.
  reflexivity.
Qed.

Lemma compose_shift `{Library} `{Nuclides} (k : nat) (body : list csv_row)
  (d : list (Z * pyfloat)) :
  (1 <= k)%nat ->
  compose (S k) body d = compose k (map shift_left body) d.
Proof.
  intros Hk. unfold compose. revert d.
  induction body as [|row body IH]; intros d; [reflexivity|].
  cbn [map attempt_each]. rewrite !record_nuclide_entry.
  rewrite nuclide_entry_shift by exact Hk.
  destruct (nuclide_entry (S k) row) as [[key x]|e]; [apply IH | reflexivity].
Qed.

(** X14.  The spent composition reads, for each burnup, the column next
    to the one the fresh composition reads: it is the fresh composition of
    the file with the second field of every row taken out, errors
    included. *)
Theorem spent_is_fresh_shifted `{Library} `{Nuclides} (in_list : list csv_row)
  (burnup : Z) :
  get_composition_spent in_list burnup
  = get_composition_fresh (map shift_left in_list) burnup.
Proof.
  destruct in_list as [|h1 [|h2 body]]; try reflexivity.
  cbn [map]. rewrite spent_rows, fresh_rows. unfold column_of.
  destruct (burnup =? 33); [|destruct (burnup =? 51)];
    apply compose_shift; lia.
Qed.

Lemma lookup_update_id {V} (k k' : Z) (v : V) (d : list (Z * V)) :
  lookup_id k (update_id k' v d) = if k =? k' then Some v else lookup_id k d.
Proof.
  induction d as [|[k0 v0] d IH]; cbn [update_id lookup_id].
  - reflexivity.
  - destruct (Z.eqb_spec k' k0) as [-> | Hne]; cbn [lookup_id].
    + destruct (k =? k0); reflexivity.
    + rewrite IH. destruct (Z.eqb_spec k k0) as [-> | _]; [|reflexivity].
      destruct (Z.eqb_spec k0 k'); [congruence | reflexivity].
Qed.

Lemma compose_app `{Library} `{Nuclides} (column : nat) (a b : list csv_row)
  (d : list (Z * pyfloat)) :
  compose column (a ++ b) d
  = match compose column a d with
    | Done d' => compose column b d'
    | Failed e => Failed e
    end.
Proof.
  unfold compose. revert d. induction a as [|row a IH]; intros d; [reflexivity|].
  cbn [app attempt_each].
  destruct (record_nuclide row column d); [apply IH | reflexivity].
Qed.

Lemma compose_done `{Library} `{Nuclides} (column : nat) (body : list csv_row)
  (d : list (Z * pyfloat)) :
  forallb (gives_entry column) body = true ->
  exists d', compose column body d = Done d'
             /\ forall key,
                  (forall r, In r body -> entry_key column r <> Some key) ->
                  lookup_id key d' = lookup_id key d.
Proof.
  revert d. induction body as [|row body IH]; intros d Hg.
  - exists d. split; [reflexivity | auto].
  - cbn [forallb] in Hg. apply andb_true_iff in Hg. destruct Hg as [Hrow Hg].
    unfold compose. cbn [attempt_each]. rewrite record_nuclide_entry.
    unfold gives_entry in Hrow.
    destruct (nuclide_entry column row) as [[k x]|e] eqn:En; [|discriminate].
    destruct (IH (update_id k x d) Hg) as (d' & Ed & Hk).
    exists d'. split; [exact Ed|]. intros key Hno.
    rewrite Hk by (intros r Hr; apply Hno; right; exact Hr).
    rewrite lookup_update_id.
    destruct (Z.eqb_spec key k) as [-> | _]; [|reflexivity].
    exfalso. apply (Hno row); [left; reflexivity|].
    unfold entry_key. rewrite En. reflexivity.
Qed.

(** X15.  When every row after the two header rows gives an entry, the
    fresh composition returns a dictionary, and the amount it holds for a
    nuclide is that of the last row naming the nuclide, two names with
    one identifier counting as the same nuclide.  A burnup that is neither
    33 nor 51 reads the same columns as any other such burnup. *)
Theorem composition_last_row `{Library} `{Nuclides} (h1 h2 : csv_row)
  (pre post : list csv_row) (row : csv_row) (burnup key : Z) (x : pyfloat) :
  forallb (gives_entry (column_of 1 burnup)) (pre ++ row :: post) = true ->
  nuclide_entry (column_of 1 burnup) row = Done (key, x) ->
  (forall r, In r post -> entry_key (column_of 1 burnup) r <> Some key) ->
  (exists data_dict,
      get_composition_fresh (h1 :: h2 :: pre ++ row :: post) burnup
      = Done data_dict
      /\ lookup_id key data_dict = Some x)
  /\ (forall other,
         burnup <> 33 -> burnup <> 51 -> other <> 33 -> other <> 51 ->
         get_composition_fresh (h1 :: h2 :: pre ++ row :: post) other
         = get_composition_fresh (h1 :: h2 :: pre ++ row :: post) burnup).
Proof.
  intros Hg Hrow Hpost. split.
  - rewrite fresh_rows, compose_app.
    rewrite forallb_app in Hg. apply andb_true_iff in Hg.
    destruct Hg as [Hpre Hrest]. cbn [forallb] in Hrest.
    apply andb_true_iff in Hrest. destruct Hrest as [_ Hpostg].
    destruct (compose_done _ pre [] Hpre) as (d1 & E1 & _). rewrite E1.
    unfold compose. cbn [attempt_each]. rewrite record_nuclide_entry, Hrow.
    destruct (compose_done _ post (update_id key x d1) Hpostg)
      as (d2 & E2 & Hk).
    exists d2. split; [exact E2|].
    rewrite (Hk key Hpost), lookup_update_id, Z.eqb_refl. reflexivity.
  - intros other Hb33 Hb51 Ho33 Ho51. rewrite !fresh_rows. unfold column_of.
    destruct (Z.eqb_spec burnup 33); [congruence|].
    destruct (Z.eqb_spec burnup 51); [congruence|].
    destruct (Z.eqb_spec other 33); [congruence|].
    destruct (Z.eqb_spec other 51); [congruence|]. reflexivity.
Qed.

Lemma composition_last_row_witness :
  exists data_dict,
    @get_composition_fresh reference sample_nuclides sample_recipe 33
    = Done data_dict
    /\ lookup_id 922350000 data_dict = Some (Finite (33 # 1000)).
Proof.
  destruct (@composition_last_row reference sample_nuclides
              (nth 0 sample_recipe []) (nth 1 sample_recipe [])
              (firstn 2 (skipn 2 sample_recipe)) []
              (nth 4 sample_recipe []) 33 922350000 (Finite (33 # 1000))
              eq_refl eq_refl)
    as [Hd _].
  - intros r [].
  - exact Hd.
Defined.

(** X16.  The first row after the header rows that gives no entry fails
    the fresh composition with its own error: [IndexError] for an empty
    row or a row without the column, the nuclide error for a name that
    names no nuclide, the conversion error for an amount that is no
    number.  The rows after it are not read. *)
Theorem composition_first_error `{Library} `{Nuclides} (h1 h2 : csv_row)
  (pre post : list csv_row) (row : csv_row) (burnup : Z) (e : recipe_exn) :
  forallb (gives_entry (column_of 1 burnup)) pre = true ->
  nuclide_entry (column_of 1 burnup) row = Failed e ->
  get_composition_fresh (h1 :: h2 :: pre ++ row :: post) burnup = Failed e
  /\ (row = [] -> e = Python IndexError)
  /\ (forall name, nth_error row 0 = Some name -> nn_id name = None ->
                   e = NucnameError name)
  /\ (forall name amount,
         nth_error row 0 = Some name -> nn_id name <> None ->
         nth_error row (column_of 1 burnup) = Some amount ->
         e = Python (FloatError amount)).
Proof.
  intros Hpre Hrow. split; [|split; [|split]].
  - rewrite fresh_rows, compose_app.
    destruct (compose_done _ pre [] Hpre) as (d1 & E1 & _). rewrite E1.
    unfold compose. cbn [attempt_each]. rewrite record_nuclide_entry, Hrow.
    reflexivity.
  - intros ->. cbn in Hrow. congruence.
  - intros name E0 En. unfold nuclide_entry in Hrow. rewrite E0, En in Hrow.
    congruence.
  - intros name amount E0 En Ea. unfold nuclide_entry in Hrow.
    rewrite E0, Ea in Hrow. destruct (nn_id name); [|congruence].
    destruct (float amount); congruence.
Qed.

Lemma composition_first_error_witness :
  @get_composition_fresh reference sample_nuclides
    (firstn 3 sample_recipe ++ [py "Xx999"; py "0.1"] :: skipn 3 sample_recipe)
    33
  = Failed (NucnameError (py "Xx999")).
Proof.
  apply (@composition_first_error reference sample_nuclides
           (nth 0 sample_recipe []) (nth 1 sample_recipe [])
           [nth 2 sample_recipe []] (skipn 3 sample_recipe)
           [py "Xx999"; py "0.1"] 33 (NucnameError (py "Xx999"))
           eq_refl eq_refl).
Defined.

(** ** Reactor files *)

Lemma replace_char (a b : char) (s : str) :
  replace [a] [b] s = map (fun x => if (a =? x)%N then b else x) s.
Proof.
  unfold replace. induction s as [|x s IH]; [reflexivity|].
  cbn [replace_from starts_with map length Nat.sub].
  destruct (a =? x)%N; cbn [andb app]; rewrite IH; reflexivity.
Qed.

(** Spaces are replaced once for the name and once more for the path; the
    second time changes nothing. *)
Lemma row_name_again (row : csv_row) :
  replace (py " ") (py "_") (row_name row) = row_name row.
Proof.
  unfold row_name. change (py " ") with (@cons char 32%N (@nil char)).
  change (py "_") with (@cons char 95%N (@nil char)).
  rewrite !replace_char, map_map. apply map_ext. intros x.
  destruct (32 =? x)%N eqn:E; [reflexivity|].
  exact (f_equal (fun b : bool => if b then 95%N else x) E).
Qed.

Lemma last_app_nonempty (a b : str) (d : char) :
  b <> [] -> last (a ++ b) d = last b d.
Proof.
  intros Hb. induction a as [|x a IH]; [reflexivity|].
  cbn [app]. rewrite <- IH.
  destruct (a ++ b) eqn:E; [|reflexivity].
  apply app_eq_nil in E. destruct E. congruence.
Qed.

Lemma with_slash_cases (out_path : str) :
  with_slash out_path
  = match out_path with
    | [] => Raise IndexError
    | _ :: _ => if (last out_path 0 =? 47)%N then Ok out_path
                else Ok (out_path ++ py "/")
    end.
Proof.
  unfold with_slash. destruct out_path as [|c s]; [reflexivity|].
  rewrite getitem_last by discriminate. cbn [bind].
  destruct (last (c :: s) 0 =? 47)%N; reflexivity.
Qed.

Lemma float_gt_ge (x : pyfloat) (n : Z) :
  float_gt x n = true -> float_ge x n = true.
Proof.
  destruct x as [q|neg|]; cbn; auto.
  destruct (inject_Z n ?= q)%Q; auto; discriminate.
Qed.

(** One turn of the loop of [write_reactors]. *)
Lemma write_reactor_row `{Library} (out_path : str) (row : csv_row) (x : pyfloat) :
  (4 <= length row)%nat ->
  float (nth 3 row []) = Some x ->
  write_reactor out_path row
  = if float_ge x 400
    then if (15 <=? length row)%nat
         then match get_lifetime row with
              | Ok _ => Ok (Some (file_in out_path row))
              | Raise e => Raise e
              end
         else Raise IndexError
    else Ok None.
Proof.
  intros Hl Hx. unfold write_reactor, field.
  rewrite (nth_error_nth' row [] (n := 3)) by lia. cbn [bind].
  rewrite Hx. cbn [bind]. destruct (float_ge x 400); [|reflexivity].
  rewrite (nth_error_nth' row [] (n := 1)) by lia. cbn [bind]. cbv zeta.
  rewrite (nth_error_nth' row [] (n := 2)) by lia. cbn [bind].
  destruct (Nat.leb_spec 15 (length row)) as [H15 | H15].
  - rewrite (nth_error_nth' row [] (n := 13)) by lia. cbn [bind].
    rewrite (nth_error_nth' row [] (n := 14)) by lia. cbn [bind].
    unfold file_in, config_of. fold (row_name row).
    destruct (assemblies (nth 2 row [])) as [[assem_no batch] size].
    destruct (get_lifetime row) as [n|e]; [|reflexivity].
    cbn [bind]. rewrite row_name_again. reflexivity.
  - destruct (nth_error row 13) as [c13|] eqn:E13.
    + cbn [bind].
      assert (E14 : nth_error row 14 = None) by (apply nth_error_None; lia).
      rewrite E14. reflexivity.
    + reflexivity.
Qed.

Lemma write_each_app {A} (a b : list A)
  (body : A -> result (option (str * document))) :
  write_each (a ++ b) body
  = match write_each a body with
    | (files, None) =>
        let (more, raised) := write_each b body in (files ++ more, raised)
    | (files, Some e) => (files, Some e)
    end.
Proof.
  induction a as [|x a IH].
  - cbn. destruct (write_each b body). reflexivity.
  - cbn [app write_each]. destruct (body x) as [[file|]|e]; [| |reflexivity].
    + rewrite IH. destruct (write_each a body) as [files [e|]].
      * reflexivity.
      * destruct (write_each b body). reflexivity.
    + exact IH.
Qed.

Lemma write_each_all {A} (items : list A)
  (body : A -> result (option (str * document))) (f : A -> str * document) :
  (forall x, In x items -> body x = Ok (Some (f x))) ->
  write_each items body = (map f items, None).
Proof.
  induction items as [|x items IH]; intros Hb; [reflexivity|].
  cbn [write_each map]. rewrite (Hb x) by (left; reflexivity).
  rewrite IH by (intros y Hy; apply Hb; right; exact Hy). reflexivity.
Qed.

Lemma selected_capacity `{Library} (region : str) (row : csv_row) :
  selected region row = true ->
  exists x, float (nth 3 row []) = Some x /\ float_gt x 400 = true.
Proof.
  unfold selected. intros Hs. apply andb_true_iff in Hs. destruct Hs as [_ Hs].
  destruct (confirm_deployment (nth 10 row []) (nth 3 row [])) as [[|]|] eqn:Hc;
    try discriminate.
  apply confirm_deployment_true in Hc. destruct Hc as (_ & Hx & _). exact Hx.
Qed.

Lemma obtain_path (region : str) :
  with_slash (py "cyclus/input/" ++ region ++ py "/reactors")
  = Ok (py "cyclus/input/" ++ region ++ py "/reactors/").
Proof.
  rewrite with_slash_cases.
  assert (Hlast : last (py "cyclus/input/" ++ region ++ py "/reactors") 0%N
                  = 115%N).
  { rewrite app_assoc, last_app_nonempty by discriminate. reflexivity. }
  rewrite Hlast. cbn [N.eqb Pos.eqb].
  destruct (py "cyclus/input/" ++ region ++ py "/reactors") eqn:E.
  - apply (f_equal (@length char)) in E. rewrite !length_app in E.
    cbn in E. lia.
  - rewrite <- E, <- !app_assoc. reflexivity.
Qed.

Lemma selected_file `{Library} (region out_path : str) (row : csv_row) :
  selected region row = true -> complete row = true ->
  write_reactor out_path row = Ok (Some (file_in out_path row)).
Proof.
  intros Hs Hc. unfold complete in Hc. apply andb_true_iff in Hc.
  destruct Hc as [H15 Hlife].
  destruct (selected_capacity region row Hs) as (x & Hx & Hg).
  apply Nat.leb_le in H15.
  rewrite (write_reactor_row out_path row x) by (lia || exact Hx).
  rewrite (float_gt_ge x 400 Hg).
  destruct (Nat.leb_spec 15 (length row)); [|lia].
  destruct (get_lifetime row); [reflexivity | discriminate].
Qed.

Lemma obtain_reactors_complete `{Library} (in_csv l : list csv_row)
  (region : str) :
  select_region in_csv region = Ok l ->
  forallb complete l = true ->
  obtain_reactors in_csv region = (map (reactor_file region) l, None).
Proof.
  intros Hsel Hc. unfold obtain_reactors. cbv zeta. rewrite Hsel.
  unfold write_reactors. rewrite obtain_path.
  apply select_region_returns in Hsel. destruct Hsel as (_ & _ & Hl).
  apply write_each_all. intros row Hin. rewrite forallb_forall in Hc.
  apply (selected_file region); [|apply Hc; exact Hin].
  rewrite Hl in Hin. apply filter_In in Hin. tauto.
Qed.

(** X17.  [obtain_reactors] writes one file for every row that
    [select_region] returns, in their order, when each of these rows has
    fifteen fields and a lifetime that [get_lifetime] computes: no selected
    row fails the capacity test of [write_reactors].  The file of a row is
    [cyclus/input/<region>/reactors/<name>.xml], with the spaces of the
    name as underscores.  When a selected row of fifteen fields has a
    lifetime that cannot be computed, the exception of [get_lifetime]
    ends the run after the files of the rows before it are written. *)
Theorem obtain_reactors_files `{Library} (in_csv l : list csv_row) (region : str) :
  select_region in_csv region = Ok l ->
  (forallb complete l = true ->
   obtain_reactors in_csv region = (map (reactor_file region) l, None))
  /\ (forall pre row post e,
         l = pre ++ row :: post ->
         forallb complete pre = true ->
         (15 <= length row)%nat ->
         get_lifetime row = Raise e ->
         obtain_reactors in_csv region
         = (map (reactor_file region) pre, Some e)).
Proof.
  intros Hsel. split; [apply obtain_reactors_complete; exact Hsel|].
  unfold obtain_reactors. cbv zeta. rewrite Hsel.
  unfold write_reactors. rewrite obtain_path.
  apply select_region_returns in Hsel. destruct Hsel as (_ & _ & Hl).
  assert (Hsel : forall row, In row l -> selected region row = true).
  { intros row Hin. rewrite Hl in Hin. apply filter_In in Hin. tauto. }
  intros pre row post e E Hc H15 Hlife. rewrite E, write_each_app.
  rewrite (write_each_all pre _ (reactor_file region)).
  - cbn [write_each].
    assert (Hs : selected region row = true)
      by (apply Hsel; rewrite E; apply in_or_app; right; left; reflexivity).
    destruct (selected_capacity region row Hs) as (x & Hx & Hg).
    rewrite (write_reactor_row _ row x) by (lia || exact Hx).
    rewrite (float_gt_ge x 400 Hg).
    destruct (Nat.leb_spec 15 (length row)); [|lia].
    rewrite Hlife. rewrite app_nil_r. reflexivity.
  - intros r Hin. rewrite forallb_forall in Hc.
    apply (selected_file region); [|apply Hc; exact Hin].
    apply Hsel. rewrite E. apply in_or_app. left. exact Hin.
Qed.

Lemma obtain_reactors_files_witness :
  exists config,
    @obtain_reactors reference
      [reactor_row (py "France") (py "ST. LAURENT A-1") (py "1969-06-01");
       reactor_row (py "Japan") (py "OHI-1") (py "1979-03-27")] (py "Europe")
    = ([(py "cyclus/input/Europe/reactors/ST._LAURENT_A-1.xml", Reactor config)],
       None)
    /\ c_lifetime config = 720 /\ c_lat config = VNum (inject_Z 0).
Proof.
  destruct (@obtain_reactors_files reference
              [reactor_row (py "France") (py "ST. LAURENT A-1") (py "1969-06-01");
               reactor_row (py "Japan") (py "OHI-1") (py "1979-03-27")]
              [reactor_row (py "France") (py "ST. LAURENT A-1") (py "1969-06-01")]
              (py "Europe"))
    as [Hall _].
  - vm_compute. reflexivity.
  - eexists. rewrite (Hall eq_refl). split; [|split]; reflexivity.
Defined.

(** X18.  The two capacity tests differ at 400: [confirm_deployment]
    asks for more than 400 and [write_reactors] for at least 400.  A row
    whose capacity is exactly 400 is never selected, so [obtain_reactors]
    writes no file for it, while [write_reactors], given the row, writes
    its file. *)
Theorem capacity_of_400 `{Library} (row : csv_row) (region out_path : str) :
  float_is (nth 3 row []) 400 ->
  complete row = true ->
  In (upper region) region_names ->
  out_path <> [] ->
  obtain_reactors [row] region = ([], None)
  /\ exists out_path',
       with_slash out_path = Ok out_path'
       /\ write_reactors [row] out_path = ([file_in out_path' row], None).
Proof.
  intros (q & Hq & Hv) Hc Hin Hne.
  assert (Hgt : float_gt (Finite q) 400 = false).
  { destruct (float_gt (Finite q) 400) eqn:Hg; [|reflexivity].
    apply float_gt_finite in Hg. rewrite Hv in Hg.
    unfold Qlt in Hg. simpl in Hg. lia. }
  assert (Hge : float_ge (Finite q) 400 = true).
  { unfold float_ge. destruct (inject_Z 400 ?= q)%Q eqn:E; auto.
    apply Qgt_alt in E. rewrite Hv in E. unfold Qlt in E. simpl in E. lia. }
  unfold complete in Hc. apply andb_true_iff in Hc. destruct Hc as [H15 Hlife].
  apply Nat.leb_le in H15.
  split.
  - unfold obtain_reactors. cbv zeta.
    assert (Hsel : select_region [row] region = Ok []).
    { assert (Hconf : confirm_deployment (nth 10 row []) (nth 3 row [])
                      = Ok false).
      { unfold confirm_deployment. rewrite Hq.
        destruct (4 <? len (nth 10 row [])); [|reflexivity].
        cbn [bind]. rewrite Hgt. reflexivity. }
      rewrite (select_region_readable [row] region Hin).
      - cbn [filter]. unfold selected. rewrite Hconf, andb_false_r.
        reflexivity.
      - cbn [forallb]. unfold readable. rewrite Hconf.
        destruct row as [|country rest]; [cbn in H15; lia|].
        destruct (Nat.leb_spec 11 (length (country :: rest))); [|lia].
        destruct (in_region region country); reflexivity. }
    rewrite Hsel. unfold write_reactors. rewrite obtain_path. reflexivity.
  - unfold write_reactors. rewrite with_slash_cases.
    destruct out_path as [|c s]; [congruence|].
    destruct (last (c :: s) 0 =? 47)%N; eexists; (split; [reflexivity|]);
      cbn [write_each];
      rewrite (write_reactor_row _ row (Finite q)) by (lia || exact Hq);
      rewrite Hge;
      (destruct (Nat.leb_spec 15 (length row)); [|lia]);
      (destruct (get_lifetime row); [reflexivity | discriminate]).
Qed.

Lemma capacity_of_400_witness :
  @obtain_reactors reference
    [[py "FRANCE"; py "CHINON A-3"; py "GCR"; py "400"; []; []; []; []; []; [];
      py "1966-08-04"; py "1990-06-15"; []; py "47.2"; py "0.17"]]
    (py "EUROPE") = ([], None)
  /\ exists file,
       @write_reactors reference
         [[py "FRANCE"; py "CHINON A-3"; py "GCR"; py "400"; []; []; []; []; [];
           []; py "1966-08-04"; py "1990-06-15"; []; py "47.2"; py "0.17"]]
         (py "out") = ([file], None)
       /\ fst file = py "out/CHINON_A-3.xml".
Proof.
  destruct (@capacity_of_400 reference
              [py "FRANCE"; py "CHINON A-3"; py "GCR"; py "400"; []; []; []; [];
               []; []; py "1966-08-04"; py "1990-06-15"; []; py "47.2";
               py "0.17"] (py "EUROPE") (py "out"))
    as (Hnone & out' & Ew & Hfile).
  - exists (inject_Z 400). split; reflexivity.
  - reflexivity.
  - vm_compute. tauto.
  - discriminate.
  - split; [exact Hnone|]. eexists. split; [exact Hfile|].
    vm_compute in Ew. injection Ew as <-. reflexivity.
Defined.

(** ** Deployment files *)





Lemma with_slash_ok (out_path : str) :
  out_path <> [] ->
  with_slash out_path
  = Ok (if (last out_path 0 =? 47)%N then out_path else out_path ++ py "/").
Proof.
  intros Hne. rewrite with_slash_cases.
  destruct out_path as [|c s]; [congruence|].
  destruct (last (c :: s) 0 =? 47)%N; reflexivity.
Qed.



(** ** The listing of the reactor directory *)

Lemma no_slash_prefix (d d2 s : str) :
  ~ In 47%N s -> starts_with (d ++ 47%N :: d2) s = false.
Proof.
  revert s. induction d as [|a d IH]; intros s Hn.
  - destruct s as [|x s]; [reflexivity|]. cbn [app starts_with].
    destruct (N.eqb_spec 47 x) as [E | _]; [|reflexivity].
    exfalso. apply Hn. left. symmetry. exact E.
  - destruct s as [|x s]; [reflexivity|]. cbn [app starts_with].
    rewrite IH by (intros H; apply Hn; right; exact H).
    apply andb_false_r.
Qed.

Lemma no_slash_find (d d2 s : str) :
  ~ In 47%N s -> find (d ++ 47%N :: d2) s = -1.
Proof.
  induction s as [|x s IH]; intros Hn.
  - cbn [find]. rewrite no_slash_prefix by exact Hn. reflexivity.
  - rewrite find_cons, no_slash_prefix by exact Hn.
    rewrite IH by (intros H; apply Hn; right; exact H). reflexivity.
Qed.

(** A directory with a slash inside does not occur in [/file]. *)
Lemma nested_absent (d1 d2 file : str) :
  d1 <> [] -> ~ In 47%N file ->
  find (d1 ++ 47%N :: d2) (47%N :: file) = -1.
Proof.
  intros Hne Hn. destruct d1 as [|a d1]; [congruence|].
  rewrite find_cons. cbn [app starts_with].
  rewrite no_slash_prefix by exact Hn. rewrite andb_false_r.
  change (a :: d1 ++ 47%N :: d2) with ((a :: d1) ++ 47%N :: d2).
  rewrite no_slash_find by exact Hn. reflexivity.
Qed.

Lemma rev_last (s : str) :
  s <> [] -> hd_error (rev s) = Some (last s 0%N).
Proof.
  destruct s as [|x s] using rev_ind; [congruence|]. intros _.
  rewrite rev_app_distr, last_last. reflexivity.
Qed.

Lemma plain_in (dir file : str) :
  dir <> [] -> last dir 0%N <> 47%N -> ~ In 47%N file ->
  find dir (47%N :: file) = -1 ->
  plain_path ((dir ++ py "/") ++ file).
Proof.
  intros Hne Hlast Hn Hocc. exists dir, file.
  pose proof (rev_last dir Hne) as Hr.
  split; [rewrite <- app_assoc; reflexivity|].
  split; [intros E; discriminate (eq_trans (eq_sym Hr) E)|].
  split; [|split; assumption].
  intros E. apply Hlast.
  assert (E' : Some (last dir 0%N) = Some 47%N)
    by exact (eq_trans (eq_sym Hr) E).
  injection E' as E'. exact E'.
Qed.

(** The names [os.listdir] returns for a directory [dir] that does not
    occur in them, joined to [dir/], give back the names. *)
Lemma listed_in (dir : str) (listdir : list str) (name : str) :
  dir <> [] -> last dir 0%N <> 47%N ->
  (forall files, In files listdir ->
                 ~ In 47%N files /\ find dir (47%N :: files) = -1) ->
  listed (map (fun files => (dir ++ py "/") ++ files) listdir) name = true
  <-> In (name ++ py ".xml") listdir.
Proof.
  intros Hne Hlast Hfiles.
  assert (Hbase : forall files, In files listdir ->
                    basename ((dir ++ py "/") ++ files) = files).
  { intros files Hin. destruct (Hfiles files Hin) as [Hn Hocc].
    rewrite <- app_assoc.
    apply (file_name_of_plain dir files); try assumption;
      rewrite (rev_last dir Hne); congruence. }
  rewrite listed_plain.
  - split.
    + intros (p & Hin & E). apply in_map_iff in Hin.
      destruct Hin as (files & <- & Hin). rewrite (Hbase files Hin) in E.
      rewrite <- E. exact Hin.
    + intros Hin. exists ((dir ++ py "/") ++ name ++ py ".xml").
      split; [|apply Hbase; exact Hin].
      apply in_map_iff. exists (name ++ py ".xml"). split; [reflexivity|exact Hin].
  - apply Forall_forall. intros p Hin. apply in_map_iff in Hin.
    destruct Hin as (files & <- & Hin). destruct (Hfiles files Hin).
    apply plain_in; assumption.
Qed.

Lemma selected_all_parseable `{Library} (in_csv l : list csv_row) (region : str) :
  select_region in_csv region = Ok l -> forallb parseable l = true.
Proof.
  intros E. apply select_region_returns in E. destruct E as (_ & _ & ->).
  apply forallb_forall. intros row Hin. apply filter_In in Hin.
  apply (selected_parseable region). tauto.
Qed.

(** [deploy_reactors] on a directory written without its final slash. *)
Lemma deploy_reactors_run `{Library} (in_csv l : list csv_row) (region : str)
  (start_year : Z) (dir reactors_path : str) (listdir : list str)
  (deployment_path : str) (nations : list str) :
  select_region in_csv region = Ok l ->
  dir <> [] -> last dir 0%N <> 47%N ->
  reactors_path = dir \/ reactors_path = dir ++ py "/" ->
  deployment_path <> [] ->
  let buildtime :=
    schedule start_year (map (fun files => (dir ++ py "/") ++ files) listdir)
             l [] in
  deploy_reactors in_csv region start_year reactors_path listdir
                  deployment_path nations
  = (write_deployment buildtime deployment_path nations, Some buildtime)
    /\ snd (write_deployment buildtime deployment_path nations) = None.
Proof.
  intros Hsel Hne Hlast Hpath Hdep buildtime.
  assert (Hw : snd (write_deployment buildtime deployment_path nations) = None).
  { unfold write_deployment. rewrite with_slash_ok by exact Hdep. reflexivity. }
  split; [|exact Hw].
  assert (Hslash : with_slash reactors_path = Ok (dir ++ py "/")).
  { destruct Hpath as [-> | ->].
    - rewrite with_slash_ok by exact Hne.
      destruct (N.eqb_spec (last dir 0%N) 47%N); [congruence | reflexivity].
    - rewrite with_slash_ok
        by (intros E; apply app_eq_nil in E; destruct E; discriminate).
      rewrite last_app_nonempty by discriminate. reflexivity. }
  unfold deploy_reactors. rewrite Hslash. cbv zeta. rewrite Hsel.
  rewrite get_buildtime_schedule
    by (apply (selected_all_parseable in_csv l region); exact Hsel).
  fold buildtime. rewrite Hw. reflexivity.
Qed.

Lemma last_such {A} (P : A -> bool) (l : list A) :
  existsb P l = true ->
  exists pre x post,
    l = pre ++ x :: post /\ P x = true /\ forall y, In y post -> P y = false.
Proof.
  induction l as [|a l IH]; [discriminate|]. cbn [existsb]. intros Hex.
  destruct (existsb P l) eqn:El.
  - destruct (IH eq_refl) as (pre & x & post & -> & Hx & Hpost).
    exists (a :: pre), x, post. auto.
  - rewrite orb_false_r in Hex. exists [], a, l. repeat split; [exact Hex|].
    intros y Hy. destruct (P y) eqn:Ey; [|reflexivity].
    assert (existsb P l = true) by (apply existsb_exists; eauto). congruence.
Qed.

(** The keys and values of the dictionary [deploy_reactors] builds. *)
Lemma listing_schedule `{Library} (start_year : Z) (dir : str)
  (listdir : list str) (l : list csv_row) :
  dir <> [] -> last dir 0%N <> 47%N ->
  (forall files, In files listdir ->
                 ~ In 47%N files /\ find dir (47%N :: files) = -1) ->
  let buildtime :=
    schedule start_year (map (fun files => (dir ++ py "/") ++ files) listdir)
             l [] in
  (forall pre row post,
      l = pre ++ row :: post ->
      (forall r, In r post -> row_name r <> row_name row) ->
      In (row_name row ++ py ".xml") listdir ->
      lookup (row_name row) buildtime
      = Some (row_country row, row_offset start_year row))
  /\ (forall name,
         lookup name buildtime <> None
         <-> (exists row, In row l /\ row_name row = name)
             /\ In (name ++ py ".xml") listdir).
Proof.
  intros Hne Hlast Hfiles.
  set (lists := map (fun files => (dir ++ py "/") ++ files) listdir).
  intros buildtime.
  assert (Hlisted : forall name,
             listed lists name = true <-> In (name ++ py ".xml") listdir)
    by (intros name; apply listed_in; assumption).
  assert (Hlast_row : forall pre row post,
             l = pre ++ row :: post ->
             (forall r, In r post -> row_name r <> row_name row) ->
             In (row_name row ++ py ".xml") listdir ->
             lookup (row_name row) buildtime
             = Some (row_country row, row_offset start_year row)).
  { intros pre row post E Hpost Hin. unfold buildtime. rewrite E.
    apply schedule_last; [exact Hpost | apply Hlisted; exact Hin]. }
  split; [exact Hlast_row|].
  intros name. split.
  - intros Hl. destruct (lookup name buildtime) as [v|] eqn:Ev; [|congruence].
    apply schedule_origin in Ev.
    destruct Ev as [Ev | (row & Hin & -> & _ & Hli)]; [discriminate|].
    split; [exists row; auto | apply Hlisted; exact Hli].
  - intros [(row & Hin & <-) Hli].
    destruct (last_such (fun r => str_eqb (row_name r) (row_name row)) l)
      as (pre & r & post & E & Hr & Hpost).
    { apply existsb_exists. exists row. split; [exact Hin|apply str_eqb_refl]. }
    apply str_eqb_eq in Hr.
    assert (Hv := Hlast_row pre r post E).
    rewrite Hr in Hv. rewrite Hv; [discriminate| |exact Hli].
    intros r' Hr' Hn.
    assert (Hf := Hpost r' Hr'). cbv beta in Hf.
    rewrite Hn, str_eqb_refl in Hf. discriminate.
Qed.

(** X20.  [deploy_reactors] on a reactor directory [dir], given with or
    without its final slash, whose listing holds names in which [dir] does
    not occur: it returns a dictionary, after [write_deployment] has
    written it.  A name is a key exactly when a selected row has the name
    and the listing holds [name + '.xml']; its value is the country and
    the offset of the last selected row with that name. *)
Theorem deploy_reactors_listing `{Library} (in_csv l : list csv_row)
  (region : str) (start_year : Z) (dir reactors_path : str)
  (listdir : list str) (deployment_path : str) (nations : list str) :
  select_region in_csv region = Ok l ->
  dir <> [] -> last dir 0%N <> 47%N ->
  reactors_path = dir \/ reactors_path = dir ++ py "/" ->
  (forall files, In files listdir ->
                 ~ In 47%N files /\ find dir (47%N :: files) = -1) ->
  deployment_path <> [] ->
  exists buildtime,
    deploy_reactors in_csv region start_year reactors_path listdir
                    deployment_path nations
    = (write_deployment buildtime deployment_path nations, Some buildtime)
    /\ snd (write_deployment buildtime deployment_path nations) = None
    /\ (forall name,
           lookup name buildtime <> None
           <-> (exists row, In row l /\ row_name row = name)
               /\ In (name ++ py ".xml") listdir)
    /\ (forall pre row post,
           l = pre ++ row :: post ->
           (forall r, In r post -> row_name r <> row_name row) ->
           In (row_name row ++ py ".xml") listdir ->
           lookup (row_name row) buildtime
           = Some (row_country row, row_offset start_year row)).
Proof.
  intros Hsel Hne Hlast Hpath Hfiles Hdep.
  destruct (deploy_reactors_run in_csv l region start_year dir reactors_path
              listdir deployment_path nations Hsel Hne Hlast Hpath Hdep)
    as [Hrun Hnone].
  destruct (listing_schedule start_year dir listdir l Hne Hlast Hfiles)
    as [Hlast_row Hkeys].
  eexists. split; [exact Hrun|]. split; [exact Hnone|].
  split; [exact Hkeys | exact Hlast_row].
Qed.

Lemma deploy_reactors_listing_witness :
  exists files,
    @deploy_reactors reference
      [reactor_row (py "France") (py "BUGEY-2") (py "1979-03-01");
       reactor_row (py "Japan") (py "OHI-1") (py "1979-03-27");
       reactor_row (py "France") (py "BUGEY-3") (py "1979-03-01")]
      (py "europe") 1970 (py "in/reactors/")
      [py "OHI-1.xml"; py "BUGEY-2.xml"] (py "out") [py "France"]
    = ((files, None), Some [(py "BUGEY-2", (py "France", 111))]).
Proof.
  destruct (@deploy_reactors_listing reference
      [reactor_row (py "France") (py "BUGEY-2") (py "1979-03-01");
       reactor_row (py "Japan") (py "OHI-1") (py "1979-03-27");
       reactor_row (py "France") (py "BUGEY-3") (py "1979-03-01")]
      [reactor_row (py "France") (py "BUGEY-2") (py "1979-03-01");
       reactor_row (py "France") (py "BUGEY-3") (py "1979-03-01")]
      (py "europe") 1970 (py "in/reactors") (py "in/reactors/")
      [py "OHI-1.xml"; py "BUGEY-2.xml"] (py "out") [py "France"])
    as (buildtime & Hrun & _).
  - vm_compute. reflexivity.
  - discriminate.
  - vm_compute. discriminate.
  - right. reflexivity.
  - intros files [<- | [<- | []]]; split; vm_compute;
      intuition discriminate.
  - discriminate.
  - eexists. vm_compute. reflexivity.
Defined.

Lemma reactors_dir_nested (region : str) :
  reactors_dir region
  = py "cyclus" ++ 47%N :: (py "input/" ++ region ++ py "/reactors").
Proof. reflexivity. Qed.

Lemma reactors_dir_last (region : str) : last (reactors_dir region) 0%N = 115%N.
Proof.
  unfold reactors_dir. rewrite app_assoc, last_app_nonempty by discriminate.
  reflexivity.
Qed.

(** X21.  What [obtain_reactors] writes, [deploy_reactors] finds.  When
    every selected row has the fields and the lifetime [write_reactors]
    needs, and the listing of [cyclus/input/<region>/reactors] holds the
    files [obtain_reactors] wrote, [deploy_reactors] on that directory
    returns a dictionary with a key for every selected row, whose value
    comes from a selected row of that name.  The directory name has a
    slash inside, so it cannot occur in a listed name. *)
Theorem obtain_then_deploy `{Library} (in_csv l : list csv_row) (region : str)
  (start_year : Z) (listdir : list str) (deployment_path : str)
  (nations : list str) :
  select_region in_csv region = Ok l ->
  forallb complete l = true ->
  (forall files, In files listdir -> ~ In 47%N files) ->
  (forall path config,
      In (path, config) (fst (obtain_reactors in_csv region)) ->
      exists files,
        In files listdir /\ path = reactors_dir region ++ py "/" ++ files) ->
  deployment_path <> [] ->
  exists buildtime,
    deploy_reactors in_csv region start_year (reactors_dir region) listdir
                    deployment_path nations
    = (write_deployment buildtime deployment_path nations, Some buildtime)
    /\ forall row,
         In row l ->
         exists r,
           In r l /\ row_name r = row_name row
           /\ lookup (row_name row) buildtime
              = Some (row_country r, row_offset start_year r).
Proof.
  intros Hsel Hc Hslash Hwritten Hdep.
  assert (Hne : reactors_dir region <> [])
    by (rewrite reactors_dir_nested; discriminate).
  assert (Hlast : last (reactors_dir region) 0%N <> 47%N)
    by (rewrite reactors_dir_last; discriminate).
  assert (Hfiles : forall files, In files listdir ->
             ~ In 47%N files /\ find (reactors_dir region) (47%N :: files) = -1).
  { intros files Hin. split; [apply Hslash; exact Hin|].
    rewrite reactors_dir_nested. apply nested_absent; [discriminate|].
    apply Hslash. exact Hin. }
  destruct (deploy_reactors_run in_csv l region start_year (reactors_dir region)
              (reactors_dir region) listdir deployment_path nations Hsel Hne
              Hlast (or_introl eq_refl) Hdep)
    as [Hrun _].
  destruct (listing_schedule start_year (reactors_dir region) listdir l Hne
              Hlast Hfiles)
    as [Hlast_row _].
  eexists. split; [exact Hrun|].
  intros row Hin.
  assert (Hlisted : forall r, In r l -> In (row_name r ++ py ".xml") listdir).
  { intros r Hr.
    destruct (Hwritten (fst (reactor_file region r)) (snd (reactor_file region r)))
      as (files & Hfl & E).
    - rewrite (obtain_reactors_complete in_csv l region Hsel Hc). cbn [fst].
      rewrite <- surjective_pairing. apply in_map. exact Hr.
    - unfold reactor_file, file_in in E. cbn [fst] in E.
      change (py "cyclus/input/" ++ region ++ py "/reactors/")
        with (py "cyclus/input/" ++ region ++ py "/reactors" ++ py "/") in E.
      unfold reactors_dir in E. rewrite <- !app_assoc in E.
      apply app_inv_head in E. apply app_inv_head in E.
      apply (app_inv_head (py "/reactors")) in E.
      apply (app_inv_head (py "/")) in E. rewrite E. exact Hfl. }
  destruct (last_such (fun r => str_eqb (row_name r) (row_name row)) l)
    as (pre & r & post & E & Hr & Hpost).
  { apply existsb_exists. exists row. split; [exact Hin|apply str_eqb_refl]. }
  apply str_eqb_eq in Hr. exists r.
  split; [rewrite E; apply in_or_app; right; left; reflexivity|].
  split; [exact Hr|]. rewrite <- Hr. apply (Hlast_row pre r post E).
  - intros r' Hr' Hn. rewrite Hr in Hn.
    assert (Hf := Hpost r' Hr'). cbv beta in Hf.
    rewrite Hn, str_eqb_refl in Hf. discriminate.
  - apply Hlisted. rewrite E. apply in_or_app. right. left. reflexivity.
Qed.

Lemma obtain_then_deploy_witness :
  exists written,
    @deploy_reactors reference
      [reactor_row (py "France") (py "ST. LAURENT A-1") (py "1969-06-01");
       reactor_row (py "Japan") (py "OHI-1") (py "1979-03-27")]
      (py "Europe") 1965 (py "cyclus/input/Europe/reactors")
      [py "ST._LAURENT_A-1.xml"] (py "out") [py "France"]
    = (written, Some [(py "ST._LAURENT_A-1", (py "France", 54))]).
Proof.
  destruct (@obtain_then_deploy reference
      [reactor_row (py "France") (py "ST. LAURENT A-1") (py "1969-06-01");
       reactor_row (py "Japan") (py "OHI-1") (py "1979-03-27")]
      [reactor_row (py "France") (py "ST. LAURENT A-1") (py "1969-06-01")]
      (py "Europe") 1965 [py "ST._LAURENT_A-1.xml"] (py "out") [py "France"])
    as (buildtime & Hrun & _).
  - vm_compute. reflexivity.
  - vm_compute. reflexivity.
  - intros files [<- | []]. vm_compute. intuition discriminate.
  - intros path config Hin. vm_compute in Hin. destruct Hin as [E | []].
    exists (py "ST._LAURENT_A-1.xml"). split; [left; reflexivity|].
    inversion E. reflexivity.
  - discriminate.
  - eexists. vm_compute. reflexivity.
Defined.

(** ** Recipe files *)

(** X22.  [produce_recipes] writes no file and always raises: the error of
    the fresh composition, else the error of the spent composition, else
    [TypeError], because it calls [write_recipes] with four of its five
    arguments.  Called with five arguments, a template and a region,
    [write_recipes] writes its file. *)
Theorem produce_recipes_raises `{Library} `{Nuclides} :
  (forall in_csv burnup,
      produce_recipes in_csv burnup
      = ([], Some match get_composition_fresh in_csv burnup with
                  | Failed e => e
                  | Done _ =>
                      match get_composition_spent in_csv burnup with
                      | Failed e => e
                      | Done _ => Python TypeError
                      end
                  end))
  /\ (forall fresh spent burnup region,
         write_recipes [fresh; spent; Template; burnup; Text region]
         = ([{| r_region := region; r_burnup := burnup;
                r_fresh := fresh; r_spent := spent |}], None)).
Proof.
  split; [|reflexivity].
  intros in_csv burnup. unfold produce_recipes. cbv zeta.
  destruct (get_composition_fresh in_csv burnup); [|reflexivity].
  destruct (get_composition_spent in_csv burnup); reflexivity.
Qed.
